(** * ApplicationIntegrationToolset

    A shallow embedding of
    [google/adk/tools/application_integration_tool/application_integration_toolset.py]
    and the properties of its construction pipeline: mode selection, the
    order of the Spec Provider requests, credential resolution, and the
    name-keyed tool registry behind [get_tools]. *)

From Stdlib Require Import String List Bool Arith Lia Permutation.
Import ListNotations.

Local Open Scope list_scope.
Local Open Scope string_scope.

(** ** Python values used by the toolset *)

Module Py.

(** Python's truth-value protocol ([__bool__] / [__len__]), as tested by
    [if], [and] and [or]. *)
Class Truthy (A : Type) : Type := truth : A -> bool.

(** A [str] is true when it is not the empty string. *)
#[export] Instance truthy_str : Truthy string :=
  fun s => match s with EmptyString => false | String _ _ => true end.

(** A [list] (and a [dict], kept as an association list) is true when it
    has at least one element. *)
#[export] Instance truthy_list {A : Type} : Truthy (list A) :=
  fun l => match l with [] => false | _ :: _ => true end.

(** [Optional[T]]: [None] is false, any other value has its own truth. *)
#[export] Instance truthy_optional {A : Type} `{Truthy A} : Truthy (option A) :=
  fun o => match o with None => false | Some a => truth a end.

(** [format(x)] inside an f-string for an [Optional[str]]. *)
Definition fstr (o : option string) : string :=
  match o with Some s => s | None => "None" end.

(** [haystack] has [needle] as a contiguous substring ([needle in haystack]). *)
Definition contains (haystack needle : string) : Prop :=
  exists pre post, haystack = pre ++ needle ++ post.

(** *** Insertion-ordered [dict] with [str] keys

    [d[k] = v] overwrites the value of an existing key in place and
    appends a new key at the end; [d.values()] lists the values in key
    insertion order. *)
Section Dict.
Context {V : Type}.

Definition dict : Type := list (string * V).

Fixpoint setitem (k : string) (v : V) (d : dict) : dict :=
  match d with
  | [] => [(k, v)]
  | (k', v') :: d' =>
      if (k' =? k)%string then (k, v) :: d' else (k', v') :: setitem k v d'
  end.

Definition keys (d : dict) : list string := map fst d.
Definition values (d : dict) : list V := map snd d.
End Dict.
Arguments dict V : clear implicits.

End Py.
Import Py.

(** ** Data model *)

(** [entity_operations]: entity name, with the operations allowed on it. *)
Definition EntityOperations : Type := list (string * list string).

(** The keyword arguments of [ApplicationIntegrationToolset(...)]. *)
Record Args : Type := mkArgs {
  a_project : string;
  a_location : string;
  a_integration : option string;
  a_trigger : option string;
  a_connection : option string;
  a_entity_operations : option EntityOperations;
  a_actions : option (list string);
  a_tool_name : option string;
  a_tool_instructions : option string;
  a_service_account_json : option string
}.

(** The call with only the two required arguments: every other parameter
    takes the default of the signature. *)
Definition default_args (project location : string) : Args :=
  {| a_project := project; a_location := location;
     a_integration := None; a_trigger := None; a_connection := None;
     a_entity_operations := None; a_actions := None;
     a_tool_name := Some ""; a_tool_instructions := Some "";
     a_service_account_json := None |}.

(** Modelled from the spec: [IntegrationClient] (clients/integration_client.py
    is not part of the sources at hand).  The spec lists, for each Spec
    Provider request, the configuration fields it is given; constructing the
    client records the eight constructor arguments and performs no request. *)
Record IntegrationClient : Type := mkIntegrationClient {
  ic_project : string;
  ic_location : string;
  ic_integration : option string;
  ic_trigger : option string;
  ic_connection : option string;
  ic_entity_operations : option EntityOperations;
  ic_actions : option (list string);
  ic_service_account_json : option string
}.

(** Modelled from the spec: [ConnectionsClient] (clients/connections_client.py
    is not part of the sources at hand); constructing it records its four
    constructor arguments and performs no request. *)
Record ConnectionsClient : Type := mkConnectionsClient {
  cc_project : string;
  cc_location : string;
  cc_connection : option string;
  cc_service_account_json : option string
}.

(** Modelled from the spec: the result of [get_connection_details], a
    mapping with the string entries ["serviceName"] and ["host"]. *)
Record ConnectionDetails : Type := mkConnectionDetails {
  serviceName : string;
  host : string
}.

(** [AuthCredentialTypes]: the member the toolset uses, with its siblings. *)
Inductive AuthCredentialTypes : Type :=
| API_KEY | HTTP | OAUTH2 | OPEN_ID_CONNECT | SERVICE_ACCOUNT.

(** [fastapi.openapi.models.HTTPBearer(bearerFormat=...)] is the one scheme
    the toolset builds itself; any other scheme comes from a helper. *)
Inductive AuthScheme : Type :=
| HTTPBearer (bearerFormat : option string)
| HelperScheme (shape : string).

(** [ServiceAccount(service_account_credential=..., scopes=...,
    use_default_credential=...)], over the type of parsed credentials.  A
    keyword the toolset leaves out keeps the default of the credential
    model: no credential, and no use of the default credential. *)
Record ServiceAccount (Cred : Type) : Type := mkServiceAccount {
  service_account_credential : option Cred;
  scopes : list string;
  use_default_credential : bool
}.
Arguments mkServiceAccount {Cred}.
Arguments service_account_credential {Cred}.
Arguments scopes {Cred}.
Arguments use_default_credential {Cred}.

(** [AuthCredential(auth_type=..., service_account=...)]. *)
Record AuthCredential (Cred : Type) : Type := mkAuthCredential {
  auth_type : AuthCredentialTypes;
  service_account : option (ServiceAccount Cred)
}.
Arguments mkAuthCredential {Cred}.
Arguments auth_type {Cred}.
Arguments service_account {Cred}.

(** ** The collaborators the toolset consumes

    The remote clients, the credential model and the OpenAPI parser live
    outside this file; the toolset is written against their interface. *)
Class Collaborators : Type := {
  World : Type;                      (* state of the remote services *)
  SpecDict : Type;                   (* an OpenAPI document *)
  ServiceAccountCredential : Type;   (* a parsed service-account payload *)
  RestApiTool : Type;
  UpstreamError : Type;              (* what a collaborator may raise *)

  (** [tool.name] *)
  name : RestApiTool -> string;

  (** The three Spec Provider requests: each may change the remote state,
      and returns or raises. *)
  provider_openapi_spec_for_integration :
    IntegrationClient -> World -> (UpstreamError + SpecDict) * World;
  provider_connection_details :
    ConnectionsClient -> World -> (UpstreamError + ConnectionDetails) * World;
  provider_openapi_spec_for_connection :
    IntegrationClient -> option string -> string -> World ->
    (UpstreamError + SpecDict) * World;

  (** [ServiceAccountCredential.model_validate_json]: local, returns the
      parsed credential or raises. *)
  model_validate_json : string -> UpstreamError + ServiceAccountCredential;

  (** The scheme half of [service_account_scheme_credential]. *)
  service_account_scheme : ServiceAccount ServiceAccountCredential -> AuthScheme;

  (** [OpenAPIToolset(spec_dict, auth_credential, auth_scheme).get_tools()]:
      local, returns the tools in document order or raises. *)
  openapi_toolset_get_tools :
    SpecDict -> AuthCredential ServiceAccountCredential -> AuthScheme ->
    UpstreamError + list RestApiTool
}.

Section Toolset.

Context `{Collaborators}.

(** Modelled from the spec: [service_account_scheme_credential]
    (openapi_tool/auth/auth_helpers.py is not part of the sources at
    hand).  The spec has the resolved credential wrap the scoped service
    account it is given, and leaves the concrete shape of the scheme to the
    helper. *)
Definition service_account_scheme_credential
    (config : ServiceAccount ServiceAccountCredential)
  : AuthScheme * AuthCredential ServiceAccountCredential :=
  (service_account_scheme config,
   {| auth_type := SERVICE_ACCOUNT; service_account := Some config |}).

(** *** Exceptions, calls and the construction monad *)

Inductive Exn : Type :=
| ValueError (msg : string)
| TypeError (msg : string)
| Propagated (e : UpstreamError).

(** One entry per call made to a collaborator, with its arguments. *)
Inductive Call : Type :=
| GetOpenapiSpecForIntegration (client : IntegrationClient)
| GetConnectionDetails (client : ConnectionsClient)
| GetOpenapiSpecForConnection (client : IntegrationClient)
    (tool_name : option string) (tool_instructions : string)
| ModelValidateJson (payload : string)
| ParseSpec (spec_dict : SpecDict)
    (auth_credential : AuthCredential ServiceAccountCredential)
    (auth_scheme : AuthScheme).

Definition is_spec_provider_call (c : Call) : bool :=
  match c with
  | GetOpenapiSpecForIntegration _ | GetConnectionDetails _
  | GetOpenapiSpecForConnection _ _ _ => true
  | ModelValidateJson _ | ParseSpec _ _ _ => false
  end.

Definition is_connection_details_call (c : Call) : bool :=
  match c with GetConnectionDetails _ => true | _ => false end.

Definition is_parser_call (c : Call) : bool :=
  match c with ParseSpec _ _ _ => true | _ => false end.

(** A run: what it returned or raised, the remote state it left, and the
    calls it made, oldest first. *)
Record Run (A : Type) : Type := mkRun {
  result : Exn + A;
  final : World;
  calls : list Call
}.
Arguments mkRun {A}.
Arguments result {A}.
Arguments final {A}.
Arguments calls {A}.

Definition M (A : Type) : Type := World -> Run A.

Definition ret {A} (a : A) : M A := fun w => mkRun (inr a) w [].

Definition raise {A} (e : Exn) : M A := fun w => mkRun (inl e) w [].

Definition bind {A B} (m : M A) (k : A -> M B) : M B :=
  fun w =>
    let r := m w in
    match result r with
    | inl e => mkRun (inl e) (final r) (calls r)
    | inr a =>
        let r' := k a (final r) in
        mkRun (result r') (final r') (calls r ++ calls r')%list
    end.

Notation "x <- m ;; k" := (bind m (fun x => k))
  (at level 100, m at next level, right associativity).
Notation "' p <- m ;; k" := (bind m (fun x => let p := x in k))
  (at level 100, p pattern, m at next level, right associativity).

(** A remote request: log the call, then return or propagate. *)
Definition remote {A} (c : Call)
    (f : World -> (UpstreamError + A) * World) : M A :=
  fun w =>
    mkRun (match fst (f w) with
           | inl e => inl (Propagated e)
           | inr a => inr a
           end)
          (snd (f w)) [c].

(** A local collaborator: log the call, then return or propagate. *)
Definition local {A} (c : Call) (r : UpstreamError + A) : M A :=
  remote c (fun w => (r, w)).

Definition get_openapi_spec_for_integration (client : IntegrationClient)
  : M SpecDict :=
  remote (GetOpenapiSpecForIntegration client)
         (provider_openapi_spec_for_integration client).

Definition get_connection_details (client : ConnectionsClient)
  : M ConnectionDetails :=
  remote (GetConnectionDetails client) (provider_connection_details client).

Definition get_openapi_spec_for_connection (client : IntegrationClient)
    (tool_name : option string) (tool_instructions : string) : M SpecDict :=
  remote (GetOpenapiSpecForConnection client tool_name tool_instructions)
         (provider_openapi_spec_for_connection client tool_name
            tool_instructions).

(** [x += s] for [x : Optional[str]]: [None] has no [+]. *)
Definition iadd (x : option string) (s : string) : M string :=
  match x with
  | Some t => ret (t ++ s)
  | None =>
      raise (TypeError
        "unsupported operand type(s) for +=: 'NoneType' and 'str'")
  end.

(** *** The class *)

Record ApplicationIntegrationToolset : Type := mkToolset {
  project : string;
  location : string;
  integration : option string;
  trigger : option string;
  connection : option string;
  entity_operations : option EntityOperations;
  actions : option (list string);
  tool_name : option string;
  tool_instructions : option string;
  service_account_json : option string;
  generated_tools : dict RestApiTool
}.

Definition set_generated_tools (self : ApplicationIntegrationToolset)
    (d : dict RestApiTool) : ApplicationIntegrationToolset :=
  {| project := project self; location := location self;
     integration := integration self; trigger := trigger self;
     connection := connection self;
     entity_operations := entity_operations self;
     actions := actions self; tool_name := tool_name self;
     tool_instructions := tool_instructions self;
     service_account_json := service_account_json self;
     generated_tools := d |}.

Definition cloud_platform : string :=
  "https://www.googleapis.com/auth/cloud-platform".

(** The pair of the branch without a payload (lines 238-245). *)
Definition default_auth
  : AuthScheme * AuthCredential ServiceAccountCredential :=
  (HTTPBearer (Some "JWT"),
   {| auth_type := SERVICE_ACCOUNT;
      service_account :=
        Some {| service_account_credential := None;
                scopes := [cloud_platform];
                use_default_credential := true |} |}).

(** The first half of [_parse_spec_to_tools] (lines 226-245): the scheme
    and credential that protect the generated tools. *)
Definition resolve_auth (self : ApplicationIntegrationToolset)
  : M (AuthScheme * AuthCredential ServiceAccountCredential) :=
  match service_account_json self with
  | Some payload =>
      if truth payload then
        sa_credential <- local (ModelValidateJson payload)
                               (model_validate_json payload);;
        let service_account :=
          {| service_account_credential := Some sa_credential;
             scopes := [cloud_platform];
             use_default_credential := false |} in
        ret (service_account_scheme_credential service_account)
      else ret default_auth
  | None => ret default_auth
  end.

(** The loop [for tool in tools: self.generated_tools[tool.name] = tool]. *)
Definition register_tools (tools : list RestApiTool) (d : dict RestApiTool)
  : dict RestApiTool :=
  fold_left (fun d tool => setitem (name tool) tool d) tools d.

Definition _parse_spec_to_tools (self : ApplicationIntegrationToolset)
    (spec_dict : SpecDict) : M ApplicationIntegrationToolset :=
  auth <- resolve_auth self;;
  tools <- local (ParseSpec spec_dict (snd auth) (fst auth))
                 (openapi_toolset_get_tools spec_dict (snd auth) (fst auth));;
  ret (set_generated_tools self
         (register_tools tools (generated_tools self))).

Definition config_error : Exn :=
  ValueError ("Either (integration and trigger) or (connection and"
              ++ " (entity_operations or actions)) should be provided.").

(** The f-string [projects/{project}/locations/{location}/connections/{connection}]. *)
Definition connection_resource (args : Args) : string :=
  "projects/" ++ a_project args ++ "/locations/" ++ a_location args
  ++ "/connections/" ++ fstr (a_connection args).

(** The text appended to [tool_instructions] in connection mode
    (lines 203-212). *)
Definition connection_directive (args : Args)
    (connection_details : ConnectionDetails) : string :=
  "ALWAYS use serviceName = "
  ++ serviceName connection_details
  ++ ", host = "
  ++ host connection_details
  ++ " and the connection name = "
  ++ (connection_resource args ++ " when" ++ " using this tool")
  ++ ". DONOT ask the user for these values as you already have those.".

Definition integration_client_of (args : Args) : IntegrationClient :=
  mkIntegrationClient (a_project args) (a_location args)
    (a_integration args) (a_trigger args) (a_connection args)
    (a_entity_operations args) (a_actions args)
    (a_service_account_json args).

Definition connections_client_of (args : Args) : ConnectionsClient :=
  mkConnectionsClient (a_project args) (a_location args)
    (a_connection args) (a_service_account_json args).

(** Lines 186-221 of [__init__]: build the client, pick the mode, and
    obtain the OpenAPI document. *)
Definition request_spec (args : Args) : M SpecDict :=
  let integration_client := integration_client_of args in
  if truth (a_integration args) && truth (a_trigger args) then
    get_openapi_spec_for_integration integration_client
  else if truth (a_connection args)
          && (truth (a_entity_operations args) || truth (a_actions args))
  then
    let connections_client := connections_client_of args in
    connection_details <- get_connection_details connections_client;;
    tool_instructions <-
      iadd (a_tool_instructions args)
           (connection_directive args connection_details);;
    get_openapi_spec_for_connection integration_client
      (a_tool_name args) tool_instructions
  else raise config_error.

(** The instance as lines 174-184 leave it: every argument stored, the
    registry empty. *)
Definition new_instance (args : Args) : ApplicationIntegrationToolset :=
  {| project := a_project args; location := a_location args;
     integration := a_integration args; trigger := a_trigger args;
     connection := a_connection args;
     entity_operations := a_entity_operations args;
     actions := a_actions args; tool_name := a_tool_name args;
     tool_instructions := a_tool_instructions args;
     service_account_json := a_service_account_json args;
     generated_tools := [] |}.

Definition __init__ (args : Args) : M ApplicationIntegrationToolset :=
  let self := new_instance args in
  spec <- request_spec args;;
  _parse_spec_to_tools self spec.

(** [get_tools] reads the registry and returns a fresh list; the instance
    it is called on is returned next to the result, as the method leaves
    it. *)
Definition get_tools (self : ApplicationIntegrationToolset)
  : list RestApiTool * ApplicationIntegrationToolset :=
  (values (generated_tools self), self).

(** [k] calls of [get_tools] in a row on one instance: the results,
    oldest first, and the instance afterwards. *)
Fixpoint get_tools_repeatedly (k : nat) (self : ApplicationIntegrationToolset)
  : list (list RestApiTool) * ApplicationIntegrationToolset :=
  match k with
  | 0 => ([], self)
  | S k' =>
      let '(tools, self') := get_tools self in
      let '(rest, self'') := get_tools_repeatedly k' self' in
      (tools :: rest, self'')
  end.

End Toolset.

Arguments result {_ A}.
Arguments final {_ A}.
Arguments calls {_ A}.

(** ** The behaviour the specification describes *)

Section Specification.

Context `{Collaborators}.

(** The two selector forms of the configuration. *)
Definition integration_form (args : Args) : bool :=
  truth (a_integration args) && truth (a_trigger args).

Definition connection_form (args : Args) : bool :=
  truth (a_connection args)
  && (truth (a_entity_operations args) || truth (a_actions args)).

Inductive Mode : Type := IntegrationMode | ConnectionMode.

(** The three validation steps, in the specification's order. *)
Definition select_mode (args : Args) : option Mode :=
  if integration_form args then Some IntegrationMode
  else if connection_form args then Some ConnectionMode
  else None.

(** The mode a run of the constructor is seen to take: its first request
    to the Spec Provider tells. *)
Definition mode_taken {A} (r : Run A) : option Mode :=
  match calls r with
  | GetOpenapiSpecForIntegration _ :: _ => Some IntegrationMode
  | GetConnectionDetails _ :: _ => Some ConnectionMode
  | _ => None
  end.

(** The names of a list, each kept at its first occurrence. *)
Fixpoint first_occurrences (names : list string) : list string :=
  match names with
  | [] => []
  | n :: rest =>
      n :: filter (fun m => negb (m =? n)) (first_occurrences rest)
  end.

(** The last tool of [tools] called [n]. *)
Definition last_named (n : string) (tools : list RestApiTool)
  : option RestApiTool :=
  find (fun tool => name tool =? n) (rev tools).

(** Last-write-wins: one tool per distinct name, in the order the names
    first appear, each name standing for the last tool that carries it. *)
Definition last_write_wins (tools : list RestApiTool) : list RestApiTool :=
  flat_map (fun n => match last_named n tools with
                     | Some tool => [tool]
                     | None => []
                     end)
           (first_occurrences (map name tools)).

(** The number of distinct names among [tools]. *)
Definition distinct_names (tools : list RestApiTool) : nat :=
  length (nodup string_dec (map name tools)).

(** What the specification promises of every valid connection-mode
    construction: one metadata request, then one document request that
    carries the service name, the host and the resource path. *)
Definition connection_requests_as_specified (args : Args) (w : World)
  : Prop :=
  exists details client tool_name text,
    filter is_spec_provider_call (calls (__init__ args w))
    = [GetConnectionDetails (connections_client_of args);
       GetOpenapiSpecForConnection client tool_name text]
    /\ fst (provider_connection_details (connections_client_of args) w)
       = inr details
    /\ contains text (serviceName details)
    /\ contains text (host details)
    /\ contains text (connection_resource args).

(** A run that ended by raising. *)
Definition fails {A} (r : Run A) : Prop := exists e, result r = inl e.

(** A payload is malformed when the credential model rejects it. *)
Definition malformed (payload : string) : Prop :=
  exists e, model_validate_json payload = inl e.

(** A run that ended with the error of the credential parser. *)
Definition fails_with_parsing_error {A} (payload : string) (r : Run A)
  : Prop :=
  exists e, model_validate_json payload = inl e
            /\ result r = inl (Propagated e).

(** The credential that stands for the ambient (default) credential. *)
Definition ambient_credential : AuthCredential ServiceAccountCredential :=
  {| auth_type := SERVICE_ACCOUNT;
     service_account :=
       Some {| service_account_credential := None;
               scopes := [cloud_platform];
               use_default_credential := true |} |}.

(** A parsed service-account credential under the fixed scope. *)
Definition scoped_service_account (parsed : ServiceAccountCredential)
  : ServiceAccount ServiceAccountCredential :=
  {| service_account_credential := Some parsed;
     scopes := [cloud_platform];
     use_default_credential := false |}.

(** A credential is scoped to exactly the cloud-platform scope. *)
Definition scoped_to_cloud_platform
    (c : AuthCredential ServiceAccountCredential) : Prop :=
  exists account, service_account c = Some account
                  /\ scopes account = [cloud_platform].

(** The same call with other [tool_name] and [tool_instructions]. *)
Definition with_tool_text (tool_name tool_instructions : option string)
    (args : Args) : Args :=
  {| a_project := a_project args; a_location := a_location args;
     a_integration := a_integration args; a_trigger := a_trigger args;
     a_connection := a_connection args;
     a_entity_operations := a_entity_operations args;
     a_actions := a_actions args; a_tool_name := tool_name;
     a_tool_instructions := tool_instructions;
     a_service_account_json := a_service_account_json args |}.

(** The same instance with other stored [tool_name] and
    [tool_instructions]. *)
Definition set_tool_text (name_ instructions : option string)
    (self : ApplicationIntegrationToolset) : ApplicationIntegrationToolset :=
  {| project := project self; location := location self;
     integration := integration self; trigger := trigger self;
     connection := connection self;
     entity_operations := entity_operations self;
     actions := actions self; tool_name := name_;
     tool_instructions := instructions;
     service_account_json := service_account_json self;
     generated_tools := generated_tools self |}.

End Specification.

(** ** Further observations on a run *)

Section Observations.

Context `{Collaborators}.

(** A call to the credential model. *)
Definition is_credential_call (c : Call) : bool :=
  match c with ModelValidateJson _ => true | _ => false end.

(** The credential calls a construction is expected to make: the payload is
    parsed only once the document is there, and only when it is a non-empty
    string. *)
Definition expected_credential_calls (args : Args) (w : World) : list Call :=
  match result (request_spec args w), a_service_account_json args with
  | inr _, Some payload =>
      if truth payload then [ModelValidateJson payload] else []
  | _, _ => []
  end.

End Observations.

(** ** A concrete set of collaborators

    Remote state is the number of requests served.  A document is the list
    of its operations, each a name with a description; the parser turns
    every operation into a tool. *)

Module Stub.

Definition spec_for_integration (client : IntegrationClient) (served : nat)
  : (string + list (string * string)) * nat :=
  (match ic_integration client with
   | Some "missing" => inl "404 integration not found"
   | Some "twice" => inr [("op1", "first"); ("op2", "only"); ("op1", "second")]
   | _ => inr [("op1", "run the trigger"); ("op2", "check the run")]
   end, S served).

Definition connection_details (client : ConnectionsClient) (served : nat)
  : (string + ConnectionDetails) * nat :=
  (match cc_connection client with
   | Some "down" => inl "503 connection unavailable"
   | _ => inr {| serviceName := "s"; host := "h" |}
   end, S served).

Definition spec_for_connection (client : IntegrationClient)
    (tool_name : option string) (tool_instructions : string) (served : nat)
  : (string + list (string * string)) * nat :=
  (inr [(fstr tool_name ++ "op1", tool_instructions);
        (fstr tool_name ++ "op2", tool_instructions)], S served).

Definition validate_json (payload : string) : string + string :=
  if payload =? "{client_email: sa@p.iam}" then inr "sa@p.iam"
  else inl "1 validation error for ServiceAccountCredential".

Definition parse (spec_dict : list (string * string))
    (auth_credential : AuthCredential string) (auth_scheme : AuthScheme)
  : string + list (string * string) :=
  inr spec_dict.

#[export] Instance collaborators : Collaborators := {|
  World := nat;
  SpecDict := list (string * string);
  ServiceAccountCredential := string;
  RestApiTool := string * string;
  UpstreamError := string;
  name := fst;
  provider_openapi_spec_for_integration := spec_for_integration;
  provider_connection_details := connection_details;
  provider_openapi_spec_for_connection := spec_for_connection;
  model_validate_json := validate_json;
  service_account_scheme := fun _ => HTTPBearer (Some "JWT");
  openapi_toolset_get_tools := parse
|}.

Definition construct (args : Args) : Run ApplicationIntegrationToolset :=
  __init__ (H := collaborators) args 0.

(** The two calls of the class docstring, and some faulty ones. *)
Definition integration_args : Args :=
  {| a_project := "test-project"; a_location := "us-central1";
     a_integration := Some "test-integration";
     a_trigger := Some "api_trigger/test_trigger";
     a_connection := None; a_entity_operations := None; a_actions := None;
     a_tool_name := Some ""; a_tool_instructions := Some "";
     a_service_account_json := None |}.

Definition connection_args : Args :=
  {| a_project := "p"; a_location := "us-central1";
     a_integration := None; a_trigger := None;
     a_connection := Some "c"; a_entity_operations := None;
     a_actions := Some ["a1"];
     a_tool_name := Some ""; a_tool_instructions := Some "";
     a_service_account_json := None |}.

Definition with_integration (i : string) (args : Args) : Args :=
  {| a_project := a_project args; a_location := a_location args;
     a_integration := Some i; a_trigger := a_trigger args;
     a_connection := a_connection args;
     a_entity_operations := a_entity_operations args;
     a_actions := a_actions args; a_tool_name := a_tool_name args;
     a_tool_instructions := a_tool_instructions args;
     a_service_account_json := a_service_account_json args |}.

Definition with_connection (c : string) (args : Args) : Args :=
  {| a_project := a_project args; a_location := a_location args;
     a_integration := a_integration args; a_trigger := a_trigger args;
     a_connection := Some c;
     a_entity_operations := a_entity_operations args;
     a_actions := a_actions args; a_tool_name := a_tool_name args;
     a_tool_instructions := a_tool_instructions args;
     a_service_account_json := a_service_account_json args |}.

Definition with_payload (payload : string) (args : Args) : Args :=
  {| a_project := a_project args; a_location := a_location args;
     a_integration := a_integration args; a_trigger := a_trigger args;
     a_connection := a_connection args;
     a_entity_operations := a_entity_operations args;
     a_actions := a_actions args; a_tool_name := a_tool_name args;
     a_tool_instructions := a_tool_instructions args;
     a_service_account_json := Some payload |}.

(** Both selector forms at once. *)
Definition both_forms_args : Args :=
  {| a_project := "p"; a_location := "us-central1";
     a_integration := Some "test-integration";
     a_trigger := Some "api_trigger/test_trigger";
     a_connection := Some "c"; a_entity_operations := None;
     a_actions := Some ["a1"];
     a_tool_name := Some ""; a_tool_instructions := Some "";
     a_service_account_json := None |}.

End Stub.

(** ** Collaborators that fail late

    As [Stub], but the document request rejects the action ["bad"], some
    integrations have a document without operations or with a nameless
    operation, and the parser rejects nameless operations. *)

Module Faulty.

Definition spec_for_integration (client : IntegrationClient) (served : nat)
  : (string + list (string * string)) * nat :=
  (match ic_integration client with
   | Some "empty" => inr []
   | Some "broken" => inr [("", "no operationId")]
   | _ => inr [("op1", "run the trigger")]
   end, S served).

Definition spec_for_connection (client : IntegrationClient)
    (tool_name : option string) (tool_instructions : string) (served : nat)
  : (string + list (string * string)) * nat :=
  (match ic_actions client with
   | Some ("bad" :: _) => inl "400 unknown action"
   | _ => inr [(fstr tool_name ++ "op1", tool_instructions)]
   end, S served).

Definition parse (spec_dict : list (string * string))
    (auth_credential : AuthCredential string) (auth_scheme : AuthScheme)
  : string + list (string * string) :=
  if existsb (fun operation => fst operation =? "") spec_dict
  then inl "operation without operationId"
  else inr spec_dict.

#[export] Instance collaborators : Collaborators := {|
  World := nat;
  SpecDict := list (string * string);
  ServiceAccountCredential := string;
  RestApiTool := string * string;
  UpstreamError := string;
  name := fst;
  provider_openapi_spec_for_integration := spec_for_integration;
  provider_connection_details := Stub.connection_details;
  provider_openapi_spec_for_connection := spec_for_connection;
  model_validate_json := Stub.validate_json;
  service_account_scheme := fun _ => HTTPBearer (Some "JWT");
  openapi_toolset_get_tools := parse
|}.

Definition construct (args : Args) : Run ApplicationIntegrationToolset :=
  __init__ (H := collaborators) args 0.

Definition bad_action_args : Args :=
  {| a_project := "p"; a_location := "us-central1";
     a_integration := None; a_trigger := None;
     a_connection := Some "c"; a_entity_operations := None;
     a_actions := Some ["bad"];
     a_tool_name := Some ""; a_tool_instructions := Some "";
     a_service_account_json := None |}.

End Faulty.

(** ** Properties of the construction pipeline *)

Section Construction.

Context `{Collaborators}.

(** *** The monad *)

Lemma bind_raises {A B} (m : M A) (k : A -> M B) (w : World) (e : Exn) :
  result (m w) = inl e ->
  bind m k w = {| result := inl e; final := final (m w); calls := calls (m w) |}.
Proof. intros E. unfold bind. rewrite E. reflexivity. Qed.

Lemma bind_returns {A B} (m : M A) (k : A -> M B) (w : World) (a : A) :
  result (m w) = inr a ->
  bind m k w
  = {| result := result (k a (final (m w)));
       final := final (k a (final (m w)));
       calls := (calls (m w) ++ calls (k a (final (m w))))%list |}.
Proof. intros E. unfold bind. rewrite E. reflexivity. Qed.

Lemma calls_bind_prefix {A B} (m : M A) (k : A -> M B) (w : World) :
  exists rest, calls (bind m k w) = (calls (m w) ++ rest)%list.
Proof.
  unfold bind. destruct (result (m w)); cbn.
  - exists []. now rewrite app_nil_r.
  - eexists. reflexivity.
Qed.

(** Only [__init__] itself raises [ValueError] or [TypeError]: a remote or
    local collaborator that raises is seen as [Propagated]. *)
Lemma remote_result {A} (c : Call) f (w : World) (e : Exn) :
  result (remote (A := A) c f w) = inl e -> exists u, e = Propagated u.
Proof.
  unfold remote; cbn. destruct (fst (f w)); intros E; inversion E.
  eexists; reflexivity.
Qed.

(** *** The two stages of [__init__] *)

Lemma init_stages (args : Args) (w : World) :
  __init__ args w
  = bind (request_spec args) (_parse_spec_to_tools (new_instance args)) w.
Proof. reflexivity. Qed.

Lemma request_spec_integration (args : Args) (w : World) :
  integration_form args = true ->
  request_spec args w
  = get_openapi_spec_for_integration (integration_client_of args) w.
Proof. unfold integration_form, request_spec. intros ->. reflexivity. Qed.

Lemma request_spec_connection (args : Args) (w : World) :
  integration_form args = false -> connection_form args = true ->
  request_spec args w
  = bind (get_connection_details (connections_client_of args))
      (fun connection_details =>
         bind (iadd (a_tool_instructions args)
                 (connection_directive args connection_details))
           (get_openapi_spec_for_connection (integration_client_of args)
              (a_tool_name args))) w.
Proof.
  unfold integration_form, connection_form, request_spec.
  intros -> ->. reflexivity.
Qed.

Lemma request_spec_invalid (args : Args) (w : World) :
  integration_form args = false -> connection_form args = false ->
  request_spec args w = raise config_error w.
Proof.
  unfold integration_form, connection_form, request_spec.
  intros -> ->. reflexivity.
Qed.

(** The second stage talks to the credential model and to the parser,
    never to the Spec Provider, and leaves the remote state alone. *)
Lemma parse_stage_shape (self : ApplicationIntegrationToolset)
    (spec_dict : SpecDict) (w : World) :
  filter is_spec_provider_call (calls (_parse_spec_to_tools self spec_dict w)) = []
  /\ final (_parse_spec_to_tools self spec_dict w) = w
  /\ (forall e, result (_parse_spec_to_tools self spec_dict w) = inl e ->
                exists u, e = Propagated u).
Proof.
  unfold _parse_spec_to_tools, resolve_auth, bind, local, remote, ret.
  destruct (service_account_json self) as [payload|]; cbn.
  - destruct (truth payload); cbn.
    + destruct (model_validate_json payload) as [u|cred]; cbn.
      * repeat split. intros e E. inversion E. eexists; reflexivity.
      * destruct (openapi_toolset_get_tools _ _ _) as [u|tools]; cbn;
          repeat split; intros e E; inversion E. eexists; reflexivity.
    + destruct (openapi_toolset_get_tools _ _ _) as [u|tools]; cbn;
        repeat split; intros e E; inversion E. eexists; reflexivity.
  - destruct (openapi_toolset_get_tools _ _ _) as [u|tools]; cbn;
      repeat split; intros e E; inversion E. eexists; reflexivity.
Qed.

Lemma init_calls (args : Args) (w : World) :
  filter is_spec_provider_call (calls (__init__ args w))
  = filter is_spec_provider_call (calls (request_spec args w)).
Proof.
  rewrite init_stages. unfold bind.
  destruct (result (request_spec args w)) as [e|spec]; cbn; [reflexivity|].
  rewrite filter_app.
  rewrite (proj1 (parse_stage_shape _ _ _)). now rewrite app_nil_r.
Qed.

Lemma init_mode_taken (args : Args) (w : World) :
  mode_taken (__init__ args w) = mode_taken (request_spec args w).
Proof.
  rewrite init_stages. unfold bind, mode_taken.
  destruct (result (request_spec args w)) as [e|spec] eqn:E; cbn;
    [reflexivity|].
  destruct (calls (request_spec args w)) as [|c rest] eqn:C; cbn.
  - exfalso. revert E C. unfold request_spec.
    destruct (truth (a_integration args) && truth (a_trigger args)).
    { discriminate. }
    destruct (truth (a_connection args)
              && (truth (a_entity_operations args) || truth (a_actions args))).
    + unfold bind, get_connection_details, remote; cbn.
      destruct (fst (provider_connection_details _ w)); discriminate.
    + discriminate.
  - reflexivity.
Qed.

Lemma request_spec_mode (args : Args) (w : World) :
  mode_taken (request_spec args w) = select_mode args.
Proof.
  unfold mode_taken, select_mode, request_spec, integration_form,
    connection_form.
  destruct (truth (a_integration args) && truth (a_trigger args)).
  { reflexivity. }
  destruct (truth (a_connection args)
            && (truth (a_entity_operations args) || truth (a_actions args))).
  - unfold bind, get_connection_details, remote; cbn.
    destruct (fst (provider_connection_details _ w)); reflexivity.
  - reflexivity.
Qed.

(** Whatever [request_spec] raises in a valid mode is not the
    configuration error. *)
Lemma request_spec_config_error (args : Args) (w : World) :
  result (request_spec args w) = inl config_error ->
  select_mode args = None.
Proof.
  unfold select_mode, request_spec, integration_form, connection_form.
  destruct (truth (a_integration args) && truth (a_trigger args)).
  { intros E. apply remote_result in E. destruct E as [u E]. discriminate. }
  destruct (truth (a_connection args)
            && (truth (a_entity_operations args) || truth (a_actions args)));
    [|reflexivity].
  unfold bind, get_connection_details, get_openapi_spec_for_connection,
    remote, iadd; cbn.
  destruct (fst (provider_connection_details _ w)); cbn; [discriminate|].
  destruct (a_tool_instructions args); cbn; [|discriminate].
  destruct (fst (provider_openapi_spec_for_connection _ _ _ _)); discriminate.
Qed.

Lemma init_config_error (args : Args) (w : World) :
  result (__init__ args w) = inl config_error ->
  result (request_spec args w) = inl config_error.
Proof.
  rewrite init_stages. unfold bind.
  destruct (result (request_spec args w)) as [e|spec] eqn:E; cbn.
  - intros P. inversion P. reflexivity.
  - intros P. apply (proj2 (proj2 (parse_stage_shape _ _ _))) in P.
    destruct P as [u P]. discriminate.
Qed.

(** C1 -- The constructor selects its mode by the three steps of the
    specification, in that order: a configuration whose [integration] and
    [trigger] are both present starts in integration mode; otherwise one
    whose [connection] is present with non-empty [entity_operations] or
    non-empty [actions] starts in connection mode; otherwise construction
    raises the configuration [ValueError], having called nothing.  An
    argument is present, or non-empty, when Python's [if] takes it for
    true: it is neither [None] nor empty. *)
Theorem mode_selection_follows_the_three_steps (args : Args) (w : World) :
  mode_taken (__init__ args w) = select_mode args
  /\ (select_mode args = None <-> result (__init__ args w) = inl config_error)
  /\ (select_mode args = None -> calls (__init__ args w) = []).
Proof.
  split; [|split; [split|]].
  - rewrite init_mode_taken. apply request_spec_mode.
  - unfold select_mode. destruct (integration_form args) eqn:I; [discriminate|].
    destruct (connection_form args) eqn:C; [discriminate|]. intros _.
    rewrite init_stages.
    rewrite (bind_raises _ _ _ config_error);
      rewrite (request_spec_invalid _ _ I C); reflexivity.
  - intros E. apply request_spec_config_error with (w := w).
    now apply init_config_error.
  - unfold select_mode. destruct (integration_form args) eqn:I; [discriminate|].
    destruct (connection_form args) eqn:C; [discriminate|]. intros _.
    rewrite init_stages.
    rewrite (bind_raises _ _ _ config_error);
      rewrite (request_spec_invalid _ _ I C); reflexivity.
Qed.

(** C6 -- When neither selector form holds, construction raises the
    configuration error at once: no call to the Spec Provider (nor to any
    other collaborator) is made and the remote state is untouched. *)
Theorem invalid_configuration_raises_before_any_call
    (args : Args) (w : World) :
  integration_form args = false ->
  connection_form args = false ->
  result (__init__ args w) = inl config_error
  /\ calls (__init__ args w) = []
  /\ final (__init__ args w) = w.
Proof.
  intros I C. rewrite init_stages.
  rewrite (bind_raises _ _ _ config_error);
    rewrite (request_spec_invalid _ _ I C); repeat split.
Qed.

(** C8 -- In integration mode the constructor makes exactly one Spec
    Provider call, [get_openapi_spec_for_integration], and never asks for
    connection metadata. *)
Theorem integration_mode_makes_one_provider_call (args : Args) (w : World) :
  integration_form args = true ->
  filter is_spec_provider_call (calls (__init__ args w))
  = [GetOpenapiSpecForIntegration (integration_client_of args)]
  /\ filter is_connection_details_call (calls (__init__ args w)) = [].
Proof.
  intros I. split.
  - rewrite init_calls, (request_spec_integration _ _ I). reflexivity.
  - assert (P : filter is_connection_details_call
                  (filter is_spec_provider_call (calls (__init__ args w)))
                = filter is_connection_details_call (calls (__init__ args w))).
    { induction (calls (__init__ args w)) as [|c l IH]; [reflexivity|].
      destruct c; cbn; rewrite ?IH; reflexivity. }
    rewrite <- P, init_calls, (request_spec_integration _ _ I). reflexivity.
Qed.

(** C5 (as the code has it) -- When both selector forms hold at once the
    configuration is accepted: no configuration error is raised, the
    integration form, tested first, wins, the one Spec Provider call is
    [get_openapi_spec_for_integration], and no connection metadata is
    requested. *)
Theorem both_forms_select_integration_mode (args : Args) (w : World) :
  integration_form args = true ->
  connection_form args = true ->
  result (__init__ args w) <> inl config_error
  /\ mode_taken (__init__ args w) = Some IntegrationMode
  /\ filter is_spec_provider_call (calls (__init__ args w))
     = [GetOpenapiSpecForIntegration (integration_client_of args)].
Proof.
  intros I C. split; [|split].
  - intros E. apply init_config_error, request_spec_config_error in E.
    unfold select_mode in E. rewrite I in E. discriminate.
  - rewrite init_mode_taken, request_spec_mode. unfold select_mode.
    now rewrite I.
  - rewrite init_calls, (request_spec_integration _ _ I). reflexivity.
Qed.

(** *** Connection mode *)

Lemma append_assoc (a b c : string) : (a ++ b) ++ c = a ++ b ++ c.
Proof. induction a as [|x a IH]; cbn; [reflexivity | now rewrite IH]. Qed.

Lemma contains_here (pre needle post : string) :
  contains (pre ++ needle ++ post) needle.
Proof. exists pre, post. reflexivity. Qed.

Lemma contains_after (p s needle : string) :
  contains s needle -> contains (p ++ s) needle.
Proof.
  intros (pre & post & ->). exists (p ++ pre), post.
  now rewrite append_assoc.
Qed.

Lemma contains_before (s q needle : string) :
  contains s needle -> contains (s ++ q) needle.
Proof.
  intros (pre & post & ->). exists pre, (post ++ q).
  now rewrite !append_assoc.
Qed.

Lemma directive_names_the_connection (args : Args)
    (details : ConnectionDetails) :
  contains (connection_directive args details) (serviceName details)
  /\ contains (connection_directive args details) (host details)
  /\ contains (connection_directive args details) (connection_resource args).
Proof.
  unfold connection_directive. repeat split.
  - apply contains_after, (contains_here "").
  - do 3 apply contains_after. apply (contains_here "").
  - do 5 apply contains_after. apply contains_before, (contains_here "").
Qed.

Lemma connection_form_has_connection (args : Args) :
  connection_form args = true ->
  exists c, a_connection args = Some c /\ fstr (a_connection args) = c.
Proof.
  unfold connection_form. destruct (a_connection args) as [c|]; cbn.
  - intros _. exists c. split; reflexivity.
  - discriminate.
Qed.

(** The requests of [request_spec] in connection mode, by what the
    metadata request and the [+=] do. *)
Lemma connection_requests (args : Args) (w : World) :
  integration_form args = false -> connection_form args = true ->
  calls (request_spec args w)
  = match fst (provider_connection_details (connections_client_of args) w),
          a_tool_instructions args with
    | inr details, Some instructions =>
        [GetConnectionDetails (connections_client_of args);
         GetOpenapiSpecForConnection (integration_client_of args)
           (a_tool_name args)
           (instructions ++ connection_directive args details)]
    | _, _ => [GetConnectionDetails (connections_client_of args)]
    end.
Proof.
  intros I C. rewrite (request_spec_connection _ _ I C).
  unfold bind, get_connection_details, get_openapi_spec_for_connection,
    remote, iadd, ret, raise; cbn -[connection_directive append].
  destruct (fst (provider_connection_details _ w)) as [u|details];
    cbn -[connection_directive append]; [reflexivity|].
  destruct (a_tool_instructions args) as [instructions|];
    cbn -[connection_directive append]; reflexivity.
Qed.

Lemma connection_details_calls_among_provider_calls (l : list Call) :
  filter is_connection_details_call (filter is_spec_provider_call l)
  = filter is_connection_details_call l.
Proof.
  induction l as [|c l IH]; [reflexivity|].
  destruct c; cbn; rewrite ?IH; reflexivity.
Qed.

(** C3 (as the code has it) -- In connection mode the constructor first
    asks for the connection details, exactly once.  When that request
    returns and [tool_instructions] is a string, the directive is appended
    to it once and exactly one [get_openapi_spec_for_connection] follows,
    given the augmented text, which contains the retrieved service name,
    the retrieved host and the path
    [projects/{project}/locations/{location}/connections/{connection}].
    When the metadata request raises, its error is passed on unchanged
    and the document request is never made. *)
Theorem connection_mode_requests_in_order (args : Args) (w : World) :
  integration_form args = false ->
  connection_form args = true ->
  (exists rest,
      calls (__init__ args w)
      = GetConnectionDetails (connections_client_of args) :: rest)
  /\ filter is_connection_details_call (calls (__init__ args w))
     = [GetConnectionDetails (connections_client_of args)]
  /\ (forall details instructions,
         fst (provider_connection_details (connections_client_of args) w)
         = inr details ->
         a_tool_instructions args = Some instructions ->
         let text := instructions ++ connection_directive args details in
         filter is_spec_provider_call (calls (__init__ args w))
         = [GetConnectionDetails (connections_client_of args);
            GetOpenapiSpecForConnection (integration_client_of args)
              (a_tool_name args) text]
         /\ contains text (serviceName details)
         /\ contains text (host details)
         /\ exists c,
             a_connection args = Some c
             /\ contains text
                  ("projects/" ++ a_project args ++ "/locations/"
                   ++ a_location args ++ "/connections/" ++ c))
  /\ (forall u,
         fst (provider_connection_details (connections_client_of args) w)
         = inl u ->
         filter is_spec_provider_call (calls (__init__ args w))
         = [GetConnectionDetails (connections_client_of args)]
         /\ result (__init__ args w) = inl (Propagated u)).
Proof.
  intros I C.
  pose proof (connection_requests args w I C) as R.
  assert (P : filter is_spec_provider_call (calls (__init__ args w))
              = calls (request_spec args w)).
  { rewrite init_calls, R.
    destruct (fst (provider_connection_details _ w));
      destruct (a_tool_instructions args); reflexivity. }
  split; [|split; [|split]].
  - rewrite init_stages.
    destruct (calls_bind_prefix (request_spec args)
                (_parse_spec_to_tools (new_instance args)) w) as [rest ->].
    rewrite R.
    destruct (fst (provider_connection_details _ w));
      destruct (a_tool_instructions args); cbn; eexists; reflexivity.
  - rewrite <- connection_details_calls_among_provider_calls, P, R.
    destruct (fst (provider_connection_details _ w));
      destruct (a_tool_instructions args); reflexivity.
  - intros details instructions D T text. rewrite P, R, D, T.
    split; [reflexivity|].
    destruct (directive_names_the_connection args details) as (S1 & S2 & S3).
    repeat split; try (apply contains_after; assumption).
    destruct (connection_form_has_connection args C) as (c & Ec & Ef).
    exists c. split; [assumption|].
    apply contains_after. unfold connection_resource in S3.
    now rewrite Ef in S3.
  - intros u D. rewrite P, R, D. split; [reflexivity|].
    rewrite init_stages. rewrite (bind_raises _ _ _ (Propagated u)).
    + reflexivity.
    + rewrite (request_spec_connection _ _ I C).
      unfold bind, get_connection_details, remote; cbn.
      rewrite D. reflexivity.
Qed.

(** Every call of the first stage is a call to the Spec Provider, and
    none of those is a call to the parser. *)
Lemma request_spec_calls_provider_only (args : Args) (w : World) :
  filter is_spec_provider_call (calls (request_spec args w))
  = calls (request_spec args w).
Proof.
  unfold request_spec.
  destruct (truth (a_integration args) && truth (a_trigger args));
    [reflexivity|].
  destruct (truth (a_connection args)
            && (truth (a_entity_operations args) || truth (a_actions args)));
    [|reflexivity].
  unfold bind, get_connection_details, get_openapi_spec_for_connection,
    remote, iadd, ret, raise; cbn -[connection_directive append].
  destruct (fst (provider_connection_details _ w));
    cbn -[connection_directive append]; [reflexivity|].
  destruct (a_tool_instructions args);
    cbn -[connection_directive append]; reflexivity.
Qed.

Lemma request_spec_never_parses (args : Args) (w : World) :
  filter is_parser_call (calls (request_spec args w)) = [].
Proof.
  rewrite <- request_spec_calls_provider_only.
  induction (calls (request_spec args w)) as [|c l IH]; [reflexivity|].
  destruct c; cbn; assumption.
Qed.

(** *** Credential resolution *)

Lemma resolve_auth_default (self : ApplicationIntegrationToolset) (w : World) :
  truth (service_account_json self) = false ->
  resolve_auth self w = ret default_auth w.
Proof.
  unfold resolve_auth. destruct (service_account_json self) as [payload|];
    cbn; [|reflexivity].
  intros E. change (truth payload = false) in E. now rewrite E.
Qed.

Lemma resolve_auth_payload (self : ApplicationIntegrationToolset)
    (payload : string) (w : World) :
  service_account_json self = Some payload -> truth payload = true ->
  resolve_auth self w
  = bind (local (ModelValidateJson payload) (model_validate_json payload))
      (fun sa_credential =>
         ret (service_account_scheme_credential
                (scoped_service_account sa_credential))) w.
Proof. unfold resolve_auth. intros -> ->. reflexivity. Qed.

(** C4 -- Without a service-account payload the resolved credential is
    the ambient one ([use_default_credential]) and the scheme is
    [HTTPBearer] with format JWT; with a payload the credential model
    accepts, the resolved credential wraps the parsed credential and the
    scheme is the one the service-account helper derives.  Either
    credential carries exactly the cloud-platform scope, and the resolved
    pair is what the constructor hands to the parser. *)
Theorem credential_resolution (args : Args) (w : World) (spec : SpecDict) :
  (truth (a_service_account_json args) = false ->
     result (resolve_auth (new_instance args) w)
     = inr (HTTPBearer (Some "JWT"), ambient_credential)
     /\ scoped_to_cloud_platform ambient_credential
     /\ (result (request_spec args w) = inr spec ->
         filter is_parser_call (calls (__init__ args w))
         = [ParseSpec spec ambient_credential (HTTPBearer (Some "JWT"))]))
  /\ (forall payload parsed,
         a_service_account_json args = Some payload ->
         truth payload = true ->
         model_validate_json payload = inr parsed ->
         let account := scoped_service_account parsed in
         let credential :=
           {| auth_type := SERVICE_ACCOUNT; service_account := Some account |} in
         result (resolve_auth (new_instance args) w)
         = inr (service_account_scheme account, credential)
         /\ service_account_credential account = Some parsed
         /\ (service_account_scheme account, credential)
            = service_account_scheme_credential account
         /\ scoped_to_cloud_platform credential
         /\ (result (request_spec args w) = inr spec ->
             filter is_parser_call (calls (__init__ args w))
             = [ParseSpec spec credential (service_account_scheme account)])).
Proof.
  pose proof (request_spec_never_parses args w) as R.
  split.
  - intros T. split; [|split].
    + now rewrite resolve_auth_default.
    + eexists. split; reflexivity.
    + intros S. rewrite init_stages, (bind_returns _ _ _ _ S). cbn [calls].
      rewrite filter_app, R. cbn [app].
      unfold _parse_spec_to_tools, bind.
      rewrite (resolve_auth_default (new_instance args)) by exact T.
      unfold local, remote, ret; cbn.
      destruct (openapi_toolset_get_tools _ _ _); reflexivity.
  - intros payload parsed J T V account credential.
    split; [|split; [|split; [|split]]].
    + rewrite (resolve_auth_payload (new_instance args) payload) by assumption.
      unfold bind, local, remote, ret; cbn. rewrite V. reflexivity.
    + reflexivity.
    + reflexivity.
    + eexists. split; reflexivity.
    + intros S. rewrite init_stages, (bind_returns _ _ _ _ S). cbn [calls].
      rewrite filter_app, R. cbn [app].
      unfold _parse_spec_to_tools, bind.
      rewrite (resolve_auth_payload (new_instance args) payload) by assumption.
      unfold bind, local, remote, ret; cbn. rewrite V; cbn.
      destruct (openapi_toolset_get_tools _ _ _); reflexivity.
Qed.

(** What the first stage raises passes through the constructor as it is. *)
Lemma init_raises_early (args : Args) (w : World) (e : Exn) :
  result (request_spec args w) = inl e -> result (__init__ args w) = inl e.
Proof. intros R. rewrite init_stages, (bind_raises _ _ _ _ R). reflexivity. Qed.

(** The failures of the first stage: the configuration error, and the
    error of whichever Spec Provider request raises. *)
Lemma request_spec_failures (args : Args) (w : World) :
  (select_mode args = None -> result (request_spec args w) = inl config_error)
  /\ (forall u,
         integration_form args = true ->
         fst (provider_openapi_spec_for_integration
                (integration_client_of args) w) = inl u ->
         result (request_spec args w) = inl (Propagated u))
  /\ (forall u,
         integration_form args = false -> connection_form args = true ->
         fst (provider_connection_details (connections_client_of args) w)
         = inl u ->
         result (request_spec args w) = inl (Propagated u))
  /\ (forall details instructions u,
         integration_form args = false -> connection_form args = true ->
         fst (provider_connection_details (connections_client_of args) w)
         = inr details ->
         a_tool_instructions args = Some instructions ->
         fst (provider_openapi_spec_for_connection
                (integration_client_of args) (a_tool_name args)
                (instructions ++ connection_directive args details)
                (snd (provider_connection_details
                        (connections_client_of args) w))) = inl u ->
         result (request_spec args w) = inl (Propagated u)).
Proof.
  split; [|split; [|split]].
  - unfold select_mode.
    destruct (integration_form args) eqn:I; [discriminate|].
    destruct (connection_form args) eqn:C; [discriminate|]. intros _.
    now rewrite (request_spec_invalid _ _ I C).
  - intros u I E. rewrite (request_spec_integration _ _ I).
    unfold get_openapi_spec_for_integration, remote; cbn. now rewrite E.
  - intros u I C E. rewrite (request_spec_connection _ _ I C).
    unfold bind, get_connection_details, remote; cbn. now rewrite E.
  - intros details instructions u I C D T E.
    rewrite (request_spec_connection _ _ I C).
    unfold bind, get_connection_details, get_openapi_spec_for_connection,
      remote, iadd, ret; cbn -[connection_directive append].
    rewrite D, T; cbn -[connection_directive append]. now rewrite E.
Qed.

(** C7 (as the code has it) -- With a non-empty payload the credential
    model rejects, construction always fails and the caller gets no
    instance: the parser is never run, so no tool is ever registered.  The
    failure is the parsing error, passed on unchanged, exactly when the
    first stage has returned its document.  When the first stage raises,
    the constructor raises that same error and the payload is never looked
    at: the configuration error when no mode is selected, and the error of
    the document request (integration mode) or of the metadata or document
    request (connection mode) when that request raises. *)
Theorem malformed_payload_aborts_construction
    (args : Args) (w : World) (payload : string) :
  a_service_account_json args = Some payload ->
  truth payload = true ->
  malformed payload ->
  fails (__init__ args w)
  /\ filter is_parser_call (calls (__init__ args w)) = []
  /\ (forall spec, result (request_spec args w) = inr spec ->
                   fails_with_parsing_error payload (__init__ args w)
                   /\ In (ModelValidateJson payload) (calls (__init__ args w)))
  /\ (forall e, result (request_spec args w) = inl e ->
                result (__init__ args w) = inl e
                /\ ~ In (ModelValidateJson payload) (calls (__init__ args w)))
  /\ (select_mode args = None -> result (__init__ args w) = inl config_error)
  /\ (forall u,
         integration_form args = true ->
         fst (provider_openapi_spec_for_integration
                (integration_client_of args) w) = inl u ->
         result (__init__ args w) = inl (Propagated u))
  /\ (forall u,
         integration_form args = false -> connection_form args = true ->
         fst (provider_connection_details (connections_client_of args) w)
         = inl u ->
         result (__init__ args w) = inl (Propagated u))
  /\ (forall details instructions u,
         integration_form args = false -> connection_form args = true ->
         fst (provider_connection_details (connections_client_of args) w)
         = inr details ->
         a_tool_instructions args = Some instructions ->
         fst (provider_openapi_spec_for_connection
                (integration_client_of args) (a_tool_name args)
                (instructions ++ connection_directive args details)
                (snd (provider_connection_details
                        (connections_client_of args) w))) = inl u ->
         result (__init__ args w) = inl (Propagated u)).
Proof.
  intros J T [u V].
  assert (G : forall spec w',
             _parse_spec_to_tools (new_instance args) spec w'
             = {| result := inl (Propagated u); final := w';
                  calls := [ModelValidateJson payload] |}).
  { intros spec w'. unfold _parse_spec_to_tools, bind.
    rewrite (resolve_auth_payload (new_instance args) payload) by assumption.
    unfold bind, local, remote, ret; cbn. rewrite V. reflexivity. }
  pose proof (request_spec_never_parses args w) as R.
  pose proof (request_spec_calls_provider_only args w) as O.
  destruct (request_spec_failures args w) as (F1 & F2 & F3 & F4).
  assert (N : ~ In (ModelValidateJson payload) (calls (request_spec args w))).
  { rewrite <- O. intros I. apply filter_In in I. destruct I as [_ I].
    discriminate I. }
  split; [|split; [|split; [|split; [|split; [|split; [|split]]]]]].
  - rewrite init_stages.
    destruct (result (request_spec args w)) as [e|spec] eqn:S.
    + rewrite (bind_raises _ _ _ _ S). exists e. reflexivity.
    + rewrite (bind_returns _ _ _ _ S), G. eexists. reflexivity.
  - rewrite init_stages.
    destruct (result (request_spec args w)) as [e|spec] eqn:S.
    + rewrite (bind_raises _ _ _ _ S). exact R.
    + rewrite (bind_returns _ _ _ _ S), G. cbn [calls].
      rewrite filter_app, R. reflexivity.
  - intros spec S. rewrite init_stages, (bind_returns _ _ _ _ S), G.
    cbn [result calls]. split.
    + exists u. split; [assumption | reflexivity].
    + apply in_or_app. right. now left.
  - intros e S. split; [now apply init_raises_early|].
    rewrite init_stages, (bind_raises _ _ _ _ S). exact N.
  - intros E. apply init_raises_early, F1, E.
  - intros u' I E. apply init_raises_early, (F2 u' I E).
  - intros u' I C E. apply init_raises_early, (F3 u' I C E).
  - intros details instructions u' I C D T' E.
    apply init_raises_early, (F4 details instructions u' I C D T' E).
Qed.

(** *** What [tool_name] and [tool_instructions] reach *)

(** C10 -- In integration mode [tool_name] and [tool_instructions] do not
    reach the Spec Provider: with any other two values the constructor
    makes the same calls with the same arguments, leaves the same remote
    state, and returns the same registry or raises the same error; only
    the two stored attributes differ. *)
Theorem tool_text_is_unused_in_integration_mode
    (args : Args) (w : World) (name_ instructions : option string) :
  integration_form args = true ->
  calls (__init__ (with_tool_text name_ instructions args) w)
  = calls (__init__ args w)
  /\ filter is_spec_provider_call (calls (__init__ args w))
     = [GetOpenapiSpecForIntegration (integration_client_of args)]
  /\ final (__init__ (with_tool_text name_ instructions args) w)
     = final (__init__ args w)
  /\ result (__init__ (with_tool_text name_ instructions args) w)
     = match result (__init__ args w) with
       | inl e => inl e
       | inr self => inr (set_tool_text name_ instructions self)
       end.
Proof.
  intros I. split; [|split; [|split]].
  2:{ rewrite init_calls, (request_spec_integration _ _ I). reflexivity. }
  all: destruct args as [p l i t c eo a tn ti j];
    rewrite !init_stages; unfold bind;
    rewrite (request_spec_integration _ _ I);
    rewrite (request_spec_integration
               (with_tool_text name_ instructions (mkArgs p l i t c eo a tn ti j))
               w I);
    unfold with_tool_text, integration_client_of, new_instance;
    cbn [a_project a_location a_integration a_trigger a_connection
         a_entity_operations a_actions a_tool_name a_tool_instructions
         a_service_account_json];
    match goal with
    | |- context [get_openapi_spec_for_integration ?client ?v] =>
        destruct (result (get_openapi_spec_for_integration client v))
          as [e|spec]
    end;
    cbn [result final calls]; try reflexivity.
  all: unfold _parse_spec_to_tools, resolve_auth, bind, local, remote, ret;
    cbn;
    destruct j as [payload|]; cbn;
    [destruct (truth payload); cbn;
     [destruct (model_validate_json payload); cbn; try reflexivity|]|];
    match goal with
    | |- context [openapi_toolset_get_tools ?x ?y ?z] =>
        destruct (openapi_toolset_get_tools x y z)
    end; reflexivity.
Qed.

(** *** Reading the registry *)

(** C9 -- Calling [get_tools] any number of times on an instance returns
    the same sequence every time, and leaves the instance as it was. *)
Theorem get_tools_is_repeatable
    (self : ApplicationIntegrationToolset) (k : nat) :
  get_tools_repeatedly k self = (repeat (fst (get_tools self)) k, self)
  /\ fst (get_tools (snd (get_tools self))) = fst (get_tools self).
Proof.
  split; [|reflexivity].
  induction k as [|k IH]; [reflexivity|].
  cbn [get_tools_repeatedly]. unfold get_tools at 1.
  rewrite IH. reflexivity.
Qed.

End Construction.

(** ** The registry *)

Section Registry.

Context `{Collaborators}.

(** *** Assignment into an insertion-ordered dict *)

Lemma setitem_present {V} (k : string) (v : V) (d : dict V) :
  In k (keys d) -> keys (setitem k v d) = keys d.
Proof.
  induction d as [|[k' v'] d IH]; cbn; [contradiction|].
  destruct (k' =? k) eqn:E.
  - apply String.eqb_eq in E. subst. reflexivity.
  - apply String.eqb_neq in E. intros [->|I]; [contradiction|].
    cbn. f_equal. apply IH, I.
Qed.

Lemma setitem_fresh {V} (k : string) (v : V) (d : dict V) :
  ~ In k (keys d) -> setitem k v d = (d ++ [(k, v)])%list.
Proof.
  induction d as [|[k' v'] d IH]; cbn; [reflexivity|].
  intros N. destruct (k' =? k) eqn:E.
  - apply String.eqb_eq in E. subst. destruct N. now left.
  - f_equal. apply IH. intros I. apply N. now right.
Qed.

Lemma setitem_entries {V} (k : string) (v : V) (d : dict V)
    (k0 : string) (v0 : V) :
  NoDup (keys d) ->
  In (k0, v0) (setitem k v d) ->
  (k0 = k /\ v0 = v) \/ (k0 <> k /\ In (k0, v0) d).
Proof.
  induction d as [|[k' v'] d IH]; cbn.
  - intros _ [E|[]]. inversion E. now left.
  - intros N. inversion N as [|? ? Nk Nd]; subst.
    destruct (k' =? k) eqn:E.
    + apply String.eqb_eq in E. subst k'. intros [E|I].
      * inversion E. now left.
      * right. split; [|now right].
        intros ->. apply Nk. change k with (fst (k, v0)).
        now apply in_map.
    + apply String.eqb_neq in E. intros [E'|I].
      * inversion E'; subst. right. split; [assumption | now left].
      * destruct (IH Nd I) as [L|[R1 R2]]; [now left|].
        right. split; [assumption | now right].
Qed.

(** *** First occurrences *)

Lemma first_occurrences_In (l : list string) (x : string) :
  In x (first_occurrences l) <-> In x l.
Proof.
  induction l as [|n l IH]; cbn; [tauto|].
  rewrite filter_In, IH, negb_true_iff, String.eqb_neq.
  destruct (string_dec n x) as [->|N]; [tauto|].
  split; [tauto|]. intros [E|I]; [tauto|]. right. split; [assumption|].
  intros ->. now apply N.
Qed.

Lemma first_occurrences_NoDup (l : list string) : NoDup (first_occurrences l).
Proof.
  induction l as [|n l IH]; cbn; constructor.
  - rewrite filter_In, negb_true_iff, String.eqb_neq. tauto.
  - now apply NoDup_filter.
Qed.

Lemma first_occurrences_snoc (l : list string) (k : string) :
  first_occurrences (l ++ [k])
  = if in_dec string_dec k l then first_occurrences l
    else (first_occurrences l ++ [k])%list.
Proof.
  induction l as [|n l IH]; cbn [app first_occurrences].
  - destruct (in_dec string_dec k []) as [[]|_]. reflexivity.
  - rewrite IH.
    destruct (in_dec string_dec k l) as [I|N];
      destruct (in_dec string_dec k (n :: l)) as [I'|N']; try reflexivity.
    + destruct N'. now right.
    + destruct I' as [->|I']; [|contradiction].
      rewrite filter_app. cbn. rewrite String.eqb_refl. cbn.
      now rewrite app_nil_r.
    + rewrite filter_app. cbn.
      destruct (k =? n) eqn:E; [|reflexivity].
      apply String.eqb_eq in E. subst. destruct N'. now left.
Qed.

Lemma first_occurrences_distinct (l : list string) :
  NoDup l -> first_occurrences l = l.
Proof.
  induction 1 as [|n l Nn Nl IH]; cbn; [reflexivity|].
  rewrite IH. f_equal.
  apply forallb_filter_id, forallb_forall. intros m I.
  apply negb_true_iff, String.eqb_neq. intros ->. contradiction.
Qed.

Lemma first_occurrences_count (l : list string) :
  length (first_occurrences l) = length (nodup string_dec l).
Proof.
  apply Permutation_length, NoDup_Permutation.
  - apply first_occurrences_NoDup.
  - apply NoDup_nodup.
  - intros x. now rewrite first_occurrences_In, nodup_In.
Qed.

(** *** The loop over the parser's tools *)

Lemma register_tools_snoc (l : list RestApiTool) (t : RestApiTool)
    (d : dict RestApiTool) :
  register_tools (l ++ [t]) d = setitem (name t) t (register_tools l d).
Proof. unfold register_tools. now rewrite fold_left_app. Qed.

Lemma registry_keys (l : list RestApiTool) :
  keys (register_tools l []) = first_occurrences (map name l).
Proof.
  induction l as [|t l IH] using rev_ind; [reflexivity|].
  rewrite register_tools_snoc, map_app. cbn [map].
  rewrite first_occurrences_snoc.
  destruct (in_dec string_dec (name t) (map name l)) as [I|N].
  - rewrite setitem_present; [assumption|].
    rewrite IH. now apply first_occurrences_In.
  - rewrite setitem_fresh.
    + unfold keys in *. rewrite map_app, IH. reflexivity.
    + rewrite IH, first_occurrences_In. assumption.
Qed.

Lemma last_named_snoc (l : list RestApiTool) (t : RestApiTool) (n : string) :
  last_named n (l ++ [t])
  = if name t =? n then Some t else last_named n l.
Proof. unfold last_named. rewrite rev_app_distr. reflexivity. Qed.

Lemma registry_entries (l : list RestApiTool) (k : string) (v : RestApiTool) :
  In (k, v) (register_tools l []) -> last_named k l = Some v.
Proof.
  revert k v. induction l as [|t l IH] using rev_ind; intros k v.
  - intros [].
  - rewrite register_tools_snoc, last_named_snoc. intros I.
    apply setitem_entries in I.
    + destruct I as [[-> ->]|[N I]].
      * now rewrite String.eqb_refl.
      * destruct (name t =? k) eqn:E.
        -- apply String.eqb_eq in E. now destruct N.
        -- now apply IH.
    + rewrite registry_keys. apply first_occurrences_NoDup.
Qed.

Lemma values_by_key {V} (d : dict V) (f : string -> option V) :
  (forall k v, In (k, v) d -> f k = Some v) ->
  values d
  = flat_map (fun n => match f n with Some v => [v] | None => [] end)
      (keys d).
Proof.
  induction d as [|[k v] d IH]; cbn; [reflexivity|].
  intros F. rewrite (F k v) by now left. cbn. f_equal.
  apply IH. intros k' v' I. apply F. now right.
Qed.

(** The registry after the loop, read back. *)
Lemma registry_values (l : list RestApiTool) :
  values (register_tools l []) = last_write_wins l.
Proof.
  unfold last_write_wins. rewrite <- registry_keys.
  apply values_by_key. intros k v. apply registry_entries.
Qed.

Lemma registry_distinct (l : list RestApiTool) :
  NoDup (map name l) -> values (register_tools l []) = l.
Proof.
  induction l as [|t l IH] using rev_ind; [reflexivity|].
  rewrite map_app. cbn [map]. intros N.
  pose proof (NoDup_app_remove_r _ _ N) as Nl.
  rewrite register_tools_snoc, setitem_fresh.
  - unfold values in *. rewrite map_app, IH by assumption. reflexivity.
  - rewrite registry_keys, first_occurrences_In.
    intros I. apply NoDup_remove_2 in N. apply N.
    rewrite app_nil_r. assumption.
Qed.

Lemma last_named_name (l : list RestApiTool) (k : string) (v : RestApiTool) :
  last_named k l = Some v -> name v = k.
Proof.
  unfold last_named. intros F. apply find_some in F.
  now apply String.eqb_eq.
Qed.

Lemma registry_names (l : list RestApiTool) :
  map name (values (register_tools l [])) = keys (register_tools l []).
Proof.
  assert (G : forall d : dict RestApiTool,
             (forall k v, In (k, v) d -> name v = k) ->
             map name (values d) = keys d).
  { induction d as [|[k v] d IH]; cbn; [reflexivity|].
    intros F. rewrite (F k v) by now left. f_equal.
    apply IH. intros k' v' I. apply F. now right. }
  apply G. intros k v I. eapply last_named_name, registry_entries, I.
Qed.

Lemma registry_holds_last (l : list RestApiTool) (tool : RestApiTool) :
  In tool (values (register_tools l [])) ->
  last_named (name tool) l = Some tool.
Proof.
  unfold values. rewrite in_map_iff. intros ([k v] & E & I). cbn in E. subst v.
  pose proof (registry_entries _ _ _ I) as L.
  now rewrite (last_named_name _ _ _ L).
Qed.

(** A constructor that returns has run the parser on some document, and
    its registry is the loop's over the parser's tools. *)
Lemma init_returns (args : Args) (w : World)
    (self : ApplicationIntegrationToolset) :
  result (__init__ args w) = inr self ->
  exists spec credential scheme tools,
    In (ParseSpec spec credential scheme) (calls (__init__ args w))
    /\ openapi_toolset_get_tools spec credential scheme = inr tools
    /\ generated_tools self = register_tools tools [].
Proof.
  rewrite init_stages. unfold bind.
  destruct (result (request_spec args w)) as [e|spec]; cbn [result calls];
    [discriminate|].
  unfold _parse_spec_to_tools, resolve_auth, bind, local, remote, ret.
  cbn.
  destruct (a_service_account_json args) as [payload|]; cbn.
  1: destruct (truth payload); cbn.
  1: destruct (model_validate_json payload) as [u|parsed]; cbn;
    [discriminate|].
  all: match goal with
       | |- context [openapi_toolset_get_tools ?x ?y ?z] =>
           destruct (openapi_toolset_get_tools x y z) as [u|tools] eqn:P
       end; cbn; [discriminate|];
    intros E; inversion E; subst; cbn;
    exists spec; do 2 eexists; exists tools;
    (split; [apply in_or_app; right; cbn; eauto | split; [exact P | reflexivity]]).
Qed.

(** C2 -- [get_tools] of a constructed toolset returns the parser's tools
    under last-write-wins: one tool per distinct name, in the order in
    which the names first come out of the parser, a name shared by several
    tools standing for the last of them in the place of the first.  Its
    length is the number of distinct names, and when all names differ it
    is the parser's sequence itself. *)
Theorem get_tools_is_last_write_wins (args : Args) (w : World)
    (self : ApplicationIntegrationToolset) :
  result (__init__ args w) = inr self ->
  exists spec credential scheme tools,
    In (ParseSpec spec credential scheme) (calls (__init__ args w))
    /\ openapi_toolset_get_tools spec credential scheme = inr tools
    /\ fst (get_tools self) = last_write_wins tools
    /\ map name (fst (get_tools self)) = first_occurrences (map name tools)
    /\ (forall tool, In tool (fst (get_tools self)) ->
                     last_named (name tool) tools = Some tool)
    /\ length (fst (get_tools self)) = distinct_names tools
    /\ (NoDup (map name tools) -> fst (get_tools self) = tools).
Proof.
  intros R. destruct (init_returns _ _ _ R) as (spec & c & s & tools & I & P & G).
  exists spec, c, s, tools. unfold get_tools; cbn [fst]. rewrite G.
  repeat split; try assumption.
  - apply registry_values.
  - rewrite registry_names. apply registry_keys.
  - apply registry_holds_last.
  - unfold distinct_names. rewrite <- first_occurrences_count, <- registry_keys.
    unfold values, keys. now rewrite !length_map.
  - apply registry_distinct.
Qed.

End Registry.

(** ** The theorems at work on the concrete collaborators *)

Module Runs.

Import Stub.

(** An empty string is taken for an absent argument: with [integration=""]
    and nothing else to select a mode, construction is refused. *)
Example empty_integration_is_absent :
  select_mode (with_integration "" integration_args) = None
  /\ result (construct (with_integration "" integration_args))
     = inl config_error.
Proof. split; reflexivity. Qed.

(** The worked example of the specification: connection ["c"] with the
    action ["a1"], the metadata request answering service ["s"] on host
    ["h"], the document holding two operations. *)
Example specification_example :
  exists self,
    result (construct connection_args) = inr self
    /\ map name (fst (get_tools self)) = ["op1"; "op2"]
    /\ Forall (fun tool => contains (snd tool) "serviceName = s"
                           /\ contains (snd tool) "host = h")
         (fst (get_tools self)).
Proof.
  eexists. split; [reflexivity|]. split; [reflexivity|].
  assert (S : contains (connection_directive connection_args
                          {| serviceName := "s"; host := "h" |})
                "serviceName = s").
  { exists "ALWAYS use ".
    exists (", host = h and the connection name = "
            ++ connection_resource connection_args
            ++ " when using this tool"
            ++ ". DONOT ask the user for these values as you already have those.").
    reflexivity. }
  assert (T : contains (connection_directive connection_args
                          {| serviceName := "s"; host := "h" |})
                "host = h").
  { exists "ALWAYS use serviceName = s, ".
    exists (" and the connection name = "
            ++ connection_resource connection_args
            ++ " when using this tool"
            ++ ". DONOT ask the user for these values as you already have those.").
    reflexivity. }
  repeat constructor; assumption.
Qed.

Lemma mode_selection_runs :
  select_mode (default_args "p" "us-central1") = None
  /\ calls (construct (default_args "p" "us-central1")) = []
  /\ mode_taken (construct integration_args) = Some IntegrationMode
  /\ mode_taken (construct connection_args) = Some ConnectionMode.
Proof.
  pose proof (@mode_selection_follows_the_three_steps collaborators
                (default_args "p" "us-central1") 0) as (_ & _ & E).
  pose proof (@mode_selection_follows_the_three_steps collaborators
                integration_args 0) as (I & _).
  pose proof (@mode_selection_follows_the_three_steps collaborators
                connection_args 0) as (C & _).
  split; [reflexivity|].
  split; [apply E; reflexivity|]. split; [exact I | exact C].
Defined.

Lemma duplicate_names_run :
  exists self,
    result (construct (with_integration "twice" integration_args)) = inr self
    /\ fst (get_tools self) = [("op1", "second"); ("op2", "only")]
    /\ length (fst (get_tools self)) = 2.
Proof.
  eexists. split; [reflexivity|].
  destruct (@get_tools_is_last_write_wins collaborators
              (with_integration "twice" integration_args) 0 _ eq_refl)
    as (spec & c & s & tools & I & P & L & _ & _ & N & _).
  destruct I as [I|[I|[]]]; [discriminate I|].
  inversion I; subst spec c s. inversion P; subst tools.
  split; [exact L | exact N].
Defined.

Lemma connection_run :
  filter is_spec_provider_call (calls (construct connection_args))
  = [GetConnectionDetails (connections_client_of connection_args);
     GetOpenapiSpecForConnection (integration_client_of connection_args)
       (Some "")
       ("" ++ connection_directive connection_args
                {| serviceName := "s"; host := "h" |})]
  /\ contains ("" ++ connection_directive connection_args
                       {| serviceName := "s"; host := "h" |}) "s"
  /\ contains ("" ++ connection_directive connection_args
                       {| serviceName := "s"; host := "h" |}) "h".
Proof.
  destruct (@connection_mode_requests_in_order collaborators
              connection_args 0 eq_refl eq_refl) as (_ & _ & R & _).
  destruct (R {| serviceName := "s"; host := "h" |} "" eq_refl eq_refl)
    as (Q & S1 & S2 & _).
  split; [exact Q | split; [exact S1 | exact S2]].
Defined.

(** The metadata request raises: the configuration is a valid
    connection-mode one, yet no document request follows the metadata
    request. *)
Lemma connection_requests_cut_short :
  select_mode (with_connection "down" connection_args) = Some ConnectionMode
  /\ filter is_spec_provider_call
       (calls (construct (with_connection "down" connection_args)))
     = [GetConnectionDetails
          (connections_client_of (with_connection "down" connection_args))]
  /\ ~ @connection_requests_as_specified collaborators
         (with_connection "down" connection_args) 0.
Proof.
  split; [reflexivity | split; [reflexivity|]].
  intros (d & c & n & t & F & _). vm_compute in F. discriminate F.
Qed.

Lemma credential_runs :
  result (resolve_auth (new_instance integration_args) 0)
  = inr (HTTPBearer (Some "JWT"), ambient_credential)
  /\ result (resolve_auth
               (new_instance
                  (with_payload "{client_email: sa@p.iam}" integration_args))
               0)
     = inr (HTTPBearer (Some "JWT"),
            {| auth_type := SERVICE_ACCOUNT;
               service_account := Some (scoped_service_account "sa@p.iam") |}).
Proof.
  split.
  - exact (proj1 (proj1 (@credential_resolution collaborators
                           integration_args 0 []) eq_refl)).
  - exact (proj1 (proj2 (@credential_resolution collaborators
                           (with_payload "{client_email: sa@p.iam}"
                              integration_args) 0 [])
                    "{client_email: sa@p.iam}" "sa@p.iam"
                    eq_refl eq_refl eq_refl)).
Defined.

Lemma both_forms_run :
  result (construct both_forms_args) <> inl config_error
  /\ mode_taken (construct both_forms_args) = Some IntegrationMode
  /\ filter is_spec_provider_call (calls (construct both_forms_args))
     = [GetOpenapiSpecForIntegration (integration_client_of both_forms_args)].
Proof.
  exact (@both_forms_select_integration_mode collaborators
           both_forms_args 0 eq_refl eq_refl).
Defined.

(** Both selector forms hold, and construction returns a toolset. *)
Lemma both_forms_are_accepted :
  integration_form both_forms_args = true
  /\ connection_form both_forms_args = true
  /\ ~ fails (construct both_forms_args).
Proof.
  split; [reflexivity | split; [reflexivity|]].
  intros (e & E). vm_compute in E. discriminate E.
Qed.

Lemma nothing_selected_run :
  result (construct (default_args "p" "us-central1")) = inl config_error
  /\ calls (construct (default_args "p" "us-central1")) = []
  /\ final (construct (default_args "p" "us-central1")) = 0.
Proof.
  exact (@invalid_configuration_raises_before_any_call collaborators
           (default_args "p" "us-central1") 0 eq_refl eq_refl).
Defined.

Lemma malformed_payload_run :
  fails (construct (with_payload "oops" integration_args))
  /\ filter is_parser_call
       (calls (construct (with_payload "oops" integration_args))) = []
  /\ fails_with_parsing_error "oops"
       (construct (with_payload "oops" integration_args)).
Proof.
  destruct (@malformed_payload_aborts_construction collaborators
              (with_payload "oops" integration_args) 0 "oops"
              eq_refl eq_refl
              (ex_intro _ "1 validation error for ServiceAccountCredential"
                 eq_refl))
    as (F & P & E & _).
  split; [exact F | split; [exact P |]].
  exact (proj1 (E [("op1", "run the trigger"); ("op2", "check the run")]
                  eq_refl)).
Defined.

(** A malformed payload, and a failure that is not the parsing error:
    the configuration error when no mode is selected, the Spec Provider's
    own error when its request raises. *)
Lemma malformed_payload_other_failures :
  (a_service_account_json (with_payload "oops" (default_args "p" "l"))
   = Some "oops"
   /\ @malformed collaborators "oops"
   /\ ~ fails_with_parsing_error "oops"
          (construct (with_payload "oops" (default_args "p" "l"))))
  /\ (select_mode (with_payload "oops"
                     (with_integration "missing" integration_args))
      = Some IntegrationMode
      /\ ~ fails_with_parsing_error "oops"
             (construct (with_payload "oops"
                           (with_integration "missing" integration_args)))).
Proof.
  split; [split; [reflexivity | split]|split; [reflexivity|]].
  - eexists. reflexivity.
  - intros (e & _ & R). vm_compute in R. discriminate R.
  - intros (e & V & R). vm_compute in V, R.
    inversion V; subst e. discriminate R.
Qed.

Lemma integration_run :
  filter is_spec_provider_call (calls (construct integration_args))
  = [GetOpenapiSpecForIntegration (integration_client_of integration_args)]
  /\ filter is_connection_details_call (calls (construct integration_args))
     = [].
Proof.
  exact (@integration_mode_makes_one_provider_call collaborators
           integration_args 0 eq_refl).
Defined.

Lemma tool_text_run :
  calls (construct (with_tool_text (Some "crm_") None integration_args))
  = calls (construct integration_args)
  /\ final (construct (with_tool_text (Some "crm_") None integration_args))
     = final (construct integration_args).
Proof.
  destruct (@tool_text_is_unused_in_integration_mode collaborators
              integration_args 0 (Some "crm_") None eq_refl)
    as (C & _ & F & _).
  split; assumption.
Defined.

End Runs.


(** ** Failures, stored attributes and the shape of a run *)

Section Further.

Context `{Collaborators}.

Lemma connection_request_spec (args : Args) (w : World)
    (details : ConnectionDetails) (instructions : string) :
  integration_form args = false -> connection_form args = true ->
  fst (provider_connection_details (connections_client_of args) w)
  = inr details ->
  a_tool_instructions args = Some instructions ->
  let text := instructions ++ connection_directive args details in
  let w' := snd (provider_connection_details (connections_client_of args) w) in
  request_spec args w
  = {| result :=
         match fst (provider_openapi_spec_for_connection
                      (integration_client_of args) (a_tool_name args) text w')
         with
         | inl u => inl (Propagated u)
         | inr spec => inr spec
         end;
       final := snd (provider_openapi_spec_for_connection
                       (integration_client_of args) (a_tool_name args) text w');
       calls := [GetConnectionDetails (connections_client_of args);
                 GetOpenapiSpecForConnection (integration_client_of args)
                   (a_tool_name args) text] |}.
Proof.
  intros I C D T text w'. rewrite (request_spec_connection _ _ I C).
  unfold bind, get_connection_details, get_openapi_spec_for_connection,
    remote, iadd, ret; cbn -[connection_directive append].
  rewrite D, T; cbn -[connection_directive append]. reflexivity.
Qed.

(** X1 -- In integration mode, an error raised by the document request is
    passed on unchanged: construction fails with it after that single call,
    and neither the credential model nor the parser is reached. *)
Theorem integration_request_error_propagates
    (args : Args) (w : World) (u : UpstreamError) :
  integration_form args = true ->
  fst (provider_openapi_spec_for_integration (integration_client_of args) w)
  = inl u ->
  result (__init__ args w) = inl (Propagated u)
  /\ calls (__init__ args w)
     = [GetOpenapiSpecForIntegration (integration_client_of args)]
  /\ final (__init__ args w)
     = snd (provider_openapi_spec_for_integration
              (integration_client_of args) w).
Proof.
  intros I E. rewrite init_stages.
  assert (R : result (request_spec args w) = inl (Propagated u)).
  { rewrite (request_spec_integration _ _ I).
    unfold get_openapi_spec_for_integration, remote; cbn. now rewrite E. }
  rewrite (bind_raises _ _ _ _ R), (request_spec_integration _ _ I).
  repeat split.
Qed.

(** X2 -- In connection mode with [tool_instructions=None], the metadata
    request is made and returns, and the [+=] then raises [TypeError]:
    construction fails without a document request. *)
Theorem none_instructions_raise_type_error
    (args : Args) (w : World) (details : ConnectionDetails) :
  integration_form args = false ->
  connection_form args = true ->
  a_tool_instructions args = None ->
  fst (provider_connection_details (connections_client_of args) w)
  = inr details ->
  (exists msg, result (__init__ args w) = inl (TypeError msg))
  /\ calls (__init__ args w) = [GetConnectionDetails (connections_client_of args)]
  /\ final (__init__ args w)
     = snd (provider_connection_details (connections_client_of args) w).
Proof.
  intros I C T D. rewrite init_stages.
  assert (R : request_spec args w
              = {| result := inl (TypeError
                     "unsupported operand type(s) for +=: 'NoneType' and 'str'");
                   final := snd (provider_connection_details
                                   (connections_client_of args) w);
                   calls := [GetConnectionDetails (connections_client_of args)] |}).
  { rewrite (request_spec_connection _ _ I C).
    unfold bind, get_connection_details, remote, iadd, raise;
      cbn -[connection_directive append].
    rewrite D, T; cbn -[connection_directive append]. reflexivity. }
  rewrite (bind_raises _ _ _ (TypeError
             "unsupported operand type(s) for +=: 'NoneType' and 'str'"));
    rewrite R; cbn [result final calls].
  - split; [eexists; reflexivity | split; reflexivity].
  - reflexivity.
Qed.

(** X3 -- In connection mode, an error raised by the document request is
    passed on unchanged: construction fails with it after the metadata
    request and the document request, in that order, and nothing else. *)
Theorem document_request_error_propagates
    (args : Args) (w : World) (details : ConnectionDetails)
    (instructions : string) (u : UpstreamError) :
  integration_form args = false ->
  connection_form args = true ->
  fst (provider_connection_details (connections_client_of args) w)
  = inr details ->
  a_tool_instructions args = Some instructions ->
  fst (provider_openapi_spec_for_connection (integration_client_of args)
         (a_tool_name args)
         (instructions ++ connection_directive args details)
         (snd (provider_connection_details (connections_client_of args) w)))
  = inl u ->
  result (__init__ args w) = inl (Propagated u)
  /\ calls (__init__ args w)
     = [GetConnectionDetails (connections_client_of args);
        GetOpenapiSpecForConnection (integration_client_of args)
          (a_tool_name args)
          (instructions ++ connection_directive args details)].
Proof.
  intros I C D T E. rewrite init_stages.
  pose proof (connection_request_spec args w details instructions I C D T) as R.
  cbv zeta in R. rewrite E in R.
  rewrite (bind_raises _ _ _ (Propagated u)); rewrite R; cbn [result calls].
  - split; reflexivity.
  - reflexivity.
Qed.

(** X4 -- When the document is there and the credential is resolved, an
    error raised by the parser is passed on unchanged: construction fails
    with it, the parser having been run once on the document with the
    resolved pair. *)
Theorem parser_error_propagates
    (args : Args) (w : World) (spec : SpecDict)
    (auth : AuthScheme * AuthCredential ServiceAccountCredential)
    (u : UpstreamError) :
  result (request_spec args w) = inr spec ->
  result (resolve_auth (new_instance args) (final (request_spec args w)))
  = inr auth ->
  openapi_toolset_get_tools spec (snd auth) (fst auth) = inl u ->
  result (__init__ args w) = inl (Propagated u)
  /\ filter is_parser_call (calls (__init__ args w))
     = [ParseSpec spec (snd auth) (fst auth)].
Proof.
  intros S A P. rewrite init_stages, (bind_returns _ _ _ _ S).
  cbn [result calls]. rewrite filter_app, request_spec_never_parses.
  cbn [app]. unfold _parse_spec_to_tools.
  rewrite (bind_returns _ _ _ _ A). cbn [result calls].
  unfold bind, local, remote, ret; cbn. rewrite P; cbn.
  split; [reflexivity|].
  rewrite filter_app. cbn.
  assert (N : filter is_parser_call
                (calls (resolve_auth (new_instance args)
                          (final (request_spec args w)))) = []).
  { unfold resolve_auth, bind, local, remote, ret.
    destruct (service_account_json (new_instance args)) as [payload|];
      [|reflexivity].
    destruct (truth payload); [|reflexivity].
    cbn. destruct (model_validate_json payload); reflexivity. }
  now rewrite N.
Qed.

(** *** What a returning constructor has done *)

Lemma resolve_auth_is_local (self : ApplicationIntegrationToolset)
    (w w' : World) :
  result (resolve_auth self w) = result (resolve_auth self w')
  /\ calls (resolve_auth self w) = calls (resolve_auth self w')
  /\ final (resolve_auth self w) = w.
Proof.
  unfold resolve_auth, bind, local, remote, ret.
  destruct (service_account_json self) as [payload|]; [|repeat split].
  destruct (truth payload); [|repeat split].
  cbn. destruct (model_validate_json payload); repeat split.
Qed.

Lemma parse_stage_returns (self self' : ApplicationIntegrationToolset)
    (spec : SpecDict) (w : World) :
  result (_parse_spec_to_tools self spec w) = inr self' <->
  exists auth tools,
    result (resolve_auth self w) = inr auth
    /\ openapi_toolset_get_tools spec (snd auth) (fst auth) = inr tools
    /\ self' = set_generated_tools self
                 (register_tools tools (generated_tools self)).
Proof.
  unfold _parse_spec_to_tools. split.
  - unfold bind at 1.
    destruct (result (resolve_auth self w)) as [e|auth] eqn:A;
      cbn [result]; [discriminate|].
    unfold bind, local, remote, ret; cbn.
    destruct (openapi_toolset_get_tools spec (snd auth) (fst auth))
      as [u|tools] eqn:P; cbn; [discriminate|].
    intros E. inversion E. exists auth, tools. repeat split. assumption.
  - intros (auth & tools & A & P & ->).
    rewrite (bind_returns _ _ _ _ A). cbn [result].
    unfold bind, local, remote, ret; cbn. rewrite P. reflexivity.
Qed.

(** X12 -- Construction returns exactly when the document request(s)
    return, the credential resolves and the parser returns; the instance is
    then the stored arguments with the registry the loop builds from the
    parser's tools, starting empty. *)
Theorem construction_returns_iff (args : Args) (w : World)
    (self : ApplicationIntegrationToolset) :
  result (__init__ args w) = inr self <->
  exists spec auth tools,
    result (request_spec args w) = inr spec
    /\ result (resolve_auth (new_instance args) w) = inr auth
    /\ openapi_toolset_get_tools spec (snd auth) (fst auth) = inr tools
    /\ self = set_generated_tools (new_instance args) (register_tools tools []).
Proof.
  rewrite init_stages. split.
  - unfold bind.
    destruct (result (request_spec args w)) as [e|spec] eqn:S;
      cbn [result]; [discriminate|].
    intros R. apply parse_stage_returns in R.
    destruct R as (auth & tools & A & P & E).
    exists spec, auth, tools. repeat split; try assumption.
    now rewrite (proj1 (resolve_auth_is_local _ w (final (request_spec args w)))).
  - intros (spec & auth & tools & S & A & P & ->).
    rewrite (bind_returns _ _ _ _ S). cbn [result].
    apply parse_stage_returns. exists auth, tools. repeat split; try assumption.
    now rewrite (proj1 (resolve_auth_is_local _ _ w)).
Qed.

Lemma init_returns_instance (args : Args) (w : World)
    (self : ApplicationIntegrationToolset) :
  result (__init__ args w) = inr self ->
  exists tools,
    self = set_generated_tools (new_instance args) (register_tools tools []).
Proof.
  rewrite init_stages. unfold bind.
  destruct (result (request_spec args w)) as [e|spec];
    cbn [result]; [discriminate|].
  intros R. apply parse_stage_returns in R.
  destruct R as (auth & tools & _ & _ & E). now exists tools.
Qed.

(** X5 -- A constructed instance stores the ten arguments as they were
    given: emptying its registry gives back the instance the constructor
    started from.  In particular the stored [tool_instructions] is the
    caller's text, never the text augmented for the document request. *)
Theorem constructed_instance_stores_arguments (args : Args) (w : World)
    (self : ApplicationIntegrationToolset) :
  result (__init__ args w) = inr self ->
  set_generated_tools self [] = new_instance args
  /\ tool_instructions self = a_tool_instructions args
  /\ tool_name self = a_tool_name args
  /\ service_account_json self = a_service_account_json args.
Proof.
  intros R. destruct (init_returns_instance _ _ _ R) as (tools & ->).
  repeat split.
Qed.

(** X6 -- In the registry of a constructed instance no name occurs twice
    and every tool is filed under its own name; the names of [get_tools]
    are therefore pairwise distinct. *)
Theorem registry_is_keyed_by_distinct_names (args : Args) (w : World)
    (self : ApplicationIntegrationToolset) :
  result (__init__ args w) = inr self ->
  NoDup (keys (generated_tools self))
  /\ (forall k tool, In (k, tool) (generated_tools self) -> name tool = k)
  /\ NoDup (map name (fst (get_tools self))).
Proof.
  intros R. destruct (init_returns_instance _ _ _ R) as (tools & ->).
  unfold get_tools; cbn [fst generated_tools set_generated_tools].
  split; [|split].
  - rewrite registry_keys. apply first_occurrences_NoDup.
  - intros k tool I. eapply last_named_name, registry_entries, I.
  - rewrite registry_names, registry_keys. apply first_occurrences_NoDup.
Qed.

Lemma registry_empty (tools : list RestApiTool) :
  values (register_tools tools []) = [] <-> tools = [].
Proof.
  split; [|intros ->; reflexivity].
  intros E. assert (K : keys (register_tools tools []) = []).
  { unfold values, keys in *. destruct (register_tools tools []);
      [reflexivity | discriminate]. }
  rewrite registry_keys in K. destruct tools; [reflexivity | discriminate].
Qed.

Lemma last_named_In (l : list RestApiTool) (k : string) (v : RestApiTool) :
  last_named k l = Some v -> In v l.
Proof.
  unfold last_named. intros F. apply find_some in F.
  apply in_rev. tauto.
Qed.

(** X7 -- [get_tools] of a constructed instance is empty exactly when the
    parser returned no tool. *)
Theorem get_tools_empty_iff_parser_empty (args : Args) (w : World)
    (self : ApplicationIntegrationToolset) :
  result (__init__ args w) = inr self ->
  exists spec credential scheme tools,
    In (ParseSpec spec credential scheme) (calls (__init__ args w))
    /\ openapi_toolset_get_tools spec credential scheme = inr tools
    /\ (fst (get_tools self) = [] <-> tools = []).
Proof.
  intros R. destruct (init_returns _ _ _ R) as (spec & c & s & tools & I & P & G).
  exists spec, c, s, tools. repeat split; try assumption;
    unfold get_tools; cbn [fst]; rewrite G; apply registry_empty.
Qed.

(** X8 -- Every tool [get_tools] returns is one the parser produced, every
    name the parser produced is the name of a returned tool, and no more
    tools are returned than were produced. *)
Theorem get_tools_draws_from_parser (args : Args) (w : World)
    (self : ApplicationIntegrationToolset) :
  result (__init__ args w) = inr self ->
  exists spec credential scheme tools,
    In (ParseSpec spec credential scheme) (calls (__init__ args w))
    /\ openapi_toolset_get_tools spec credential scheme = inr tools
    /\ (forall tool, In tool (fst (get_tools self)) -> In tool tools)
    /\ (forall tool, In tool tools ->
                     In (name tool) (map name (fst (get_tools self))))
    /\ length (fst (get_tools self)) <= length tools.
Proof.
  intros R. destruct (init_returns _ _ _ R) as (spec & c & s & tools & I & P & G).
  exists spec, c, s, tools. unfold get_tools; cbn [fst]. rewrite G.
  split; [assumption|]. split; [assumption|]. split; [|split].
  - intros tool T. eapply last_named_In, registry_holds_last, T.
  - intros tool T. rewrite registry_names, registry_keys.
    apply first_occurrences_In, in_map, T.
  - assert (L : length (values (register_tools tools []))
                = length (keys (register_tools tools []))).
    { unfold values, keys. now rewrite !length_map. }
    rewrite L, registry_keys, first_occurrences_count.
    rewrite <- (length_map name tools).
    apply NoDup_incl_length; [apply NoDup_nodup|].
    intros x. apply nodup_In.
Qed.

(** *** Which calls are made, and in what order *)

Lemma request_spec_never_validates (args : Args) (w : World) :
  filter is_credential_call (calls (request_spec args w)) = [].
Proof.
  rewrite <- request_spec_calls_provider_only.
  induction (calls (request_spec args w)) as [|c l IH]; [reflexivity|].
  destruct c; cbn; assumption.
Qed.

Lemma request_spec_at_most_two (args : Args) (w : World) :
  length (calls (request_spec args w)) <= 2.
Proof.
  unfold request_spec.
  destruct (truth (a_integration args) && truth (a_trigger args));
    [cbn; lia|].
  destruct (truth (a_connection args)
            && (truth (a_entity_operations args) || truth (a_actions args)));
    [|cbn; lia].
  unfold bind, get_connection_details, get_openapi_spec_for_connection,
    remote, iadd, ret, raise; cbn -[connection_directive append].
  destruct (fst (provider_connection_details _ w));
    cbn -[connection_directive append]; [lia|].
  destruct (a_tool_instructions args);
    cbn -[connection_directive append]; lia.
Qed.

Lemma parse_stage_calls (self : ApplicationIntegrationToolset)
    (spec : SpecDict) (w : World) :
  let l := calls (_parse_spec_to_tools self spec w) in
  l = (filter is_credential_call l ++ filter is_parser_call l)%list
  /\ length (filter is_credential_call l) <= 1
  /\ length (filter is_parser_call l) <= 1
  /\ filter is_credential_call l
     = match service_account_json self with
       | Some payload =>
           if truth payload then [ModelValidateJson payload] else []
       | None => []
       end.
Proof.
  unfold _parse_spec_to_tools, resolve_auth, bind, local, remote, ret.
  destruct (service_account_json self) as [payload|]; cbn.
  1: destruct (truth payload); cbn.
  1: destruct (model_validate_json payload) as [u|cred]; cbn;
    [repeat split; lia|].
  all: match goal with
       | |- context [openapi_toolset_get_tools ?x ?y ?z] =>
           destruct (openapi_toolset_get_tools x y z)
       end; cbn; repeat split; lia.
Qed.

(** X9 -- The payload is handed to the credential model only once the
    document has been obtained, and only when it is a non-empty string:
    with no payload, an empty one, an invalid configuration or a failed
    document request, [model_validate_json] is never called; otherwise it
    is called exactly once, on the payload as given. *)
Theorem credential_is_parsed_after_the_document (args : Args) (w : World) :
  filter is_credential_call (calls (__init__ args w))
  = expected_credential_calls args w.
Proof.
  unfold expected_credential_calls. rewrite init_stages. unfold bind.
  destruct (result (request_spec args w)) as [e|spec]; cbn [calls].
  - apply request_spec_never_validates.
  - rewrite filter_app, request_spec_never_validates. cbn [app].
    apply (proj2 (proj2 (proj2 (parse_stage_calls (new_instance args) spec
                                  (final (request_spec args w)))))).
Qed.

(** X10 -- The calls of a construction come in three groups, in this
    order: the Spec Provider requests (at most two), the credential parse
    (at most one), the parser run (at most one). *)
Theorem calls_come_in_pipeline_order (args : Args) (w : World) :
  let l := calls (__init__ args w) in
  l = (filter is_spec_provider_call l ++ filter is_credential_call l
       ++ filter is_parser_call l)%list
  /\ length (filter is_spec_provider_call l) <= 2
  /\ length (filter is_credential_call l) <= 1
  /\ length (filter is_parser_call l) <= 1.
Proof.
  cbv zeta. rewrite init_stages. unfold bind.
  pose proof (request_spec_calls_provider_only args w) as A.
  pose proof (request_spec_never_validates args w) as B.
  pose proof (request_spec_never_parses args w) as C.
  pose proof (request_spec_at_most_two args w) as D.
  destruct (result (request_spec args w)) as [e|spec]; cbn [calls].
  - rewrite A, B, C, app_nil_r. cbn. repeat split; lia.
  - destruct (parse_stage_calls (new_instance args) spec
                (final (request_spec args w))) as (P & Q & R & _).
    cbv zeta in P, Q, R.
    pose proof (proj1 (parse_stage_shape (new_instance args) spec
                         (final (request_spec args w)))) as S.
    rewrite !filter_app, A, B, C, S, app_nil_r. cbn [app].
    repeat split; try assumption.
    now rewrite <- P.
Qed.

(** X11 -- The remote state a construction leaves is the one its last Spec
    Provider request left: in integration mode after the single document
    request, in connection mode after the document request served in the
    state the metadata request left.  Resolving the credential and parsing
    never touch it. *)
Theorem remote_state_after_construction (args : Args) (w : World) :
  final (__init__ args w) = final (request_spec args w)
  /\ (integration_form args = true ->
      final (__init__ args w)
      = snd (provider_openapi_spec_for_integration
               (integration_client_of args) w))
  /\ (integration_form args = false -> connection_form args = true ->
      forall details instructions,
        fst (provider_connection_details (connections_client_of args) w)
        = inr details ->
        a_tool_instructions args = Some instructions ->
        final (__init__ args w)
        = snd (provider_openapi_spec_for_connection
                 (integration_client_of args) (a_tool_name args)
                 (instructions ++ connection_directive args details)
                 (snd (provider_connection_details
                         (connections_client_of args) w)))).
Proof.
  assert (F : final (__init__ args w) = final (request_spec args w)).
  { rewrite init_stages. unfold bind.
    destruct (result (request_spec args w)); cbn [final]; [reflexivity|].
    apply parse_stage_shape. }
  split; [exact F | split].
  - intros I. rewrite F, (request_spec_integration _ _ I). reflexivity.
  - intros I C details instructions D T.
    rewrite F, (connection_request_spec args w details instructions I C D T).
    reflexivity.
Qed.

(** *** Running the second stage on an instance that has a registry *)

Lemma setitem_keys {V} (k : string) (v : V) (d : dict V) :
  (exists added, keys (setitem k v d) = (keys d ++ added)%list)
  /\ (NoDup (keys d) -> NoDup (keys (setitem k v d))).
Proof.
  destruct (in_dec string_dec k (keys d)) as [I|N].
  - rewrite (setitem_present _ _ _ I). split; [|trivial].
    exists []. now rewrite app_nil_r.
  - rewrite (setitem_fresh _ _ _ N). unfold keys. rewrite map_app. cbn.
    split; [eexists; reflexivity|].
    intros D. apply NoDup_app; [assumption | repeat constructor; intros [] |].
    intros a Ia [<-|[]]. now apply N.
Qed.

Lemma register_tools_keys (tools : list RestApiTool) (d : dict RestApiTool) :
  (exists added, keys (register_tools tools d) = (keys d ++ added)%list)
  /\ (NoDup (keys d) -> NoDup (keys (register_tools tools d))).
Proof.
  revert d. induction tools as [|t tools IH]; intros d.
  - split; [|trivial]. exists []. cbn. now rewrite app_nil_r.
  - change (register_tools (t :: tools) d)
      with (register_tools tools (setitem (name t) t d)).
    destruct (IH (setitem (name t) t d)) as ((a2 & E2) & N2).
    destruct (setitem_keys (name t) t d) as ((a1 & E1) & N1).
    split.
    + exists (a1 ++ a2)%list. now rewrite E2, E1, app_assoc.
    + intros D. apply N2, N1, D.
Qed.

(** X13 -- [_parse_spec_to_tools] on an instance that already has tools
    keeps every registered name where it is (new names are appended after
    them), keeps the names pairwise distinct, and changes no other
    attribute of the instance. *)
Theorem parsing_again_keeps_registered_names
    (self self' : ApplicationIntegrationToolset) (spec : SpecDict) (w : World) :
  result (_parse_spec_to_tools self spec w) = inr self' ->
  (exists added,
      keys (generated_tools self')
      = (keys (generated_tools self) ++ added)%list)
  /\ (NoDup (keys (generated_tools self)) ->
      NoDup (keys (generated_tools self')))
  /\ set_generated_tools self' (generated_tools self) = self.
Proof.
  intros R. apply parse_stage_returns in R.
  destruct R as (auth & tools & _ & _ & ->).
  cbn [generated_tools set_generated_tools].
  destruct (register_tools_keys tools (generated_tools self)) as (E & N).
  split; [exact E | split; [exact N|]].
  destruct self; reflexivity.
Qed.

Lemma setitem_as_map {V} (k : string) (v : V) (d : dict V) :
  NoDup (keys d) -> In k (keys d) ->
  setitem k v d = map (fun e => if fst e =? k then (k, v) else e) d.
Proof.
  induction d as [|[k' v'] d IH]; cbn; [contradiction|].
  intros N I. inversion N as [|? ? Nk Nd]; subst.
  destruct (k' =? k) eqn:E.
  - f_equal. apply String.eqb_eq in E. subst k'.
    transitivity (map (fun e : string * V => e) d); [symmetry; apply map_id|].
    apply map_ext_in. intros e Ie.
    destruct (fst e =? k) eqn:E2; [|reflexivity].
    apply String.eqb_eq in E2. destruct Nk. subst k. now apply in_map.
  - f_equal. apply IH; [assumption|].
    destruct I as [->|I]; [|exact I].
    rewrite String.eqb_refl in E. discriminate.
Qed.

Lemma register_tools_present (l : list RestApiTool) (d : dict RestApiTool) :
  NoDup (keys d) ->
  (forall t, In t l -> In (name t) (keys d)) ->
  register_tools l d
  = map (fun e => match last_named (fst e) l with
                  | Some t => (fst e, t)
                  | None => e
                  end) d.
Proof.
  intros N. induction l as [|t l IH] using rev_ind; intros M.
  - cbn. transitivity (map (fun e : string * RestApiTool => e) d);
      [symmetry; apply map_id | apply map_ext; reflexivity].
  - assert (M' : forall t', In t' l -> In (name t') (keys d)).
    { intros t' I. apply M, in_or_app. now left. }
    assert (K : forall f : string * RestApiTool -> string * RestApiTool,
               (forall e, fst (f e) = fst e) -> keys (map f d) = keys d).
    { intros f F. unfold keys. rewrite map_map. apply map_ext, F. }
    rewrite register_tools_snoc, (IH M').
    rewrite setitem_as_map.
    + rewrite map_map. apply map_ext. intros [k v]. cbn [fst].
      rewrite last_named_snoc, (String.eqb_sym (name t) k).
      destruct (last_named k l) as [t'|]; cbn [fst];
        destruct (k =? name t) eqn:E; try reflexivity;
        apply String.eqb_eq in E; now subst k.
    + rewrite K; [assumption|].
      intros [k v]; cbn. now destruct (last_named k l).
    + rewrite K.
      * apply M, in_or_app. right. now left.
      * intros [k v]; cbn. now destruct (last_named k l).
Qed.

(** X14 -- [_parse_spec_to_tools] on an instance whose registry has
    distinct keys, with a document whose tools all carry registered names,
    leaves the names and their order as they are: each name the new run
    produces then holds the last tool of the new run that carries it, and
    every other name keeps the tool it had. *)
Theorem parsing_again_replaces_tools_in_place
    (self self' : ApplicationIntegrationToolset) (spec : SpecDict) (w : World) :
  result (_parse_spec_to_tools self spec w) = inr self' ->
  NoDup (keys (generated_tools self)) ->
  exists auth tools,
    result (resolve_auth self w) = inr auth
    /\ openapi_toolset_get_tools spec (snd auth) (fst auth) = inr tools
    /\ ((forall tool, In tool tools ->
                      In (name tool) (keys (generated_tools self))) ->
        keys (generated_tools self') = keys (generated_tools self)
        /\ generated_tools self'
           = map (fun entry => match last_named (fst entry) tools with
                               | Some tool => (fst entry, tool)
                               | None => entry
                               end) (generated_tools self)).
Proof.
  intros R N. apply parse_stage_returns in R.
  destruct R as (auth & tools & A & P & ->).
  exists auth, tools. split; [assumption | split; [assumption|]].
  intros M. cbn [generated_tools set_generated_tools].
  rewrite (register_tools_present tools (generated_tools self) N M).
  split; [|reflexivity].
  unfold keys. rewrite map_map. apply map_ext.
  intros [k v]; cbn. now destruct (last_named k tools).
Qed.

End Further.

(** ** The further theorems at work *)

Module FurtherRuns.

Import Stub.

Lemma missing_integration_run :
  result (construct (with_integration "missing" integration_args))
  = inl (Propagated "404 integration not found")
  /\ calls (construct (with_integration "missing" integration_args))
     = [GetOpenapiSpecForIntegration
          (integration_client_of (with_integration "missing" integration_args))]
  /\ final (construct (with_integration "missing" integration_args)) = 1.
Proof.
  exact (@integration_request_error_propagates Stub.collaborators
           (with_integration "missing" integration_args) 0
           "404 integration not found" eq_refl eq_refl).
Defined.

Lemma none_instructions_run :
  (exists msg,
      result (construct (with_tool_text (Some "") None connection_args))
      = inl (TypeError msg))
  /\ calls (construct (with_tool_text (Some "") None connection_args))
     = [GetConnectionDetails (connections_client_of connection_args)].
Proof.
  destruct (@none_instructions_raise_type_error Stub.collaborators
              (with_tool_text (Some "") None connection_args) 0
              {| serviceName := "s"; host := "h" |}
              eq_refl eq_refl eq_refl eq_refl) as (E & C & _).
  split; [exact E | exact C].
Defined.

Lemma bad_action_run :
  result (Faulty.construct Faulty.bad_action_args)
  = inl (Propagated (H := Faulty.collaborators) "400 unknown action")
  /\ length (calls (Faulty.construct Faulty.bad_action_args)) = 2.
Proof.
  destruct (@document_request_error_propagates Faulty.collaborators
              Faulty.bad_action_args 0
              {| serviceName := "s"; host := "h" |} ""
              "400 unknown action" eq_refl eq_refl eq_refl eq_refl eq_refl)
    as (E & C).
  split; [exact E|]. unfold Faulty.construct. rewrite C. reflexivity.
Defined.

Lemma nameless_operation_run :
  result (Faulty.construct (with_integration "broken" integration_args))
  = inl (Propagated (H := Faulty.collaborators)
           "operation without operationId")
  /\ filter is_parser_call
       (calls (Faulty.construct (with_integration "broken" integration_args)))
     = [ParseSpec (H := Faulty.collaborators) [("", "no operationId")]
          ambient_credential (HTTPBearer (Some "JWT"))].
Proof.
  exact (@parser_error_propagates Faulty.collaborators
           (with_integration "broken" integration_args) 0
           [("", "no operationId")] (default_auth (H := Faulty.collaborators))
           "operation without operationId" eq_refl eq_refl eq_refl).
Defined.

Lemma stored_instructions_run :
  exists self,
    result (construct connection_args) = inr self
    /\ set_generated_tools self [] = new_instance connection_args
    /\ tool_instructions self = Some "".
Proof.
  eexists. split; [reflexivity|].
  destruct (@constructed_instance_stores_arguments Stub.collaborators
              connection_args 0 _ eq_refl) as (E & T & _).
  split; [exact E | exact T].
Defined.

Lemma distinct_names_run :
  exists self,
    result (construct (with_integration "twice" integration_args)) = inr self
    /\ NoDup (map name (fst (get_tools self))).
Proof.
  eexists. split; [reflexivity|].
  exact (proj2 (proj2 (@registry_is_keyed_by_distinct_names Stub.collaborators
                         (with_integration "twice" integration_args) 0 _
                         eq_refl))).
Defined.

Lemma no_operations_run :
  exists self,
    result (Faulty.construct (with_integration "empty" integration_args))
    = inr self
    /\ fst (get_tools (H := Faulty.collaborators) self) = [].
Proof.
  eexists. split; [reflexivity|].
  destruct (@get_tools_empty_iff_parser_empty Faulty.collaborators
              (with_integration "empty" integration_args) 0 _ eq_refl)
    as (spec & c & s & tools & I & P & E).
  destruct I as [I|[I|[]]]; [discriminate I|].
  inversion I; subst spec c s. inversion P; subst tools.
  apply E. reflexivity.
Defined.

Lemma tools_from_parser_run :
  exists self,
    result (construct (with_integration "twice" integration_args)) = inr self
    /\ length (fst (get_tools self)) <= 3
    /\ forall tool,
        In tool (fst (get_tools self)) ->
        In tool [("op1", "first"); ("op2", "only"); ("op1", "second")].
Proof.
  eexists. split; [reflexivity|].
  destruct (@get_tools_draws_from_parser Stub.collaborators
              (with_integration "twice" integration_args) 0 _ eq_refl)
    as (spec & c & s & tools & I & P & M & _ & L).
  destruct I as [I|[I|[]]]; [discriminate I|].
  inversion I; subst spec c s. inversion P; subst tools.
  split; [exact L | exact M].
Defined.

Lemma remote_state_run :
  final (construct integration_args) = 1
  /\ final (construct connection_args) = 2.
Proof.
  destruct (@remote_state_after_construction Stub.collaborators
              integration_args 0) as (_ & I & _).
  destruct (@remote_state_after_construction Stub.collaborators
              connection_args 0) as (_ & _ & C).
  split.
  - exact (I eq_refl).
  - exact (C eq_refl eq_refl {| serviceName := "s"; host := "h" |} ""
             eq_refl eq_refl).
Defined.

Lemma returning_run :
  result (construct integration_args)
  = inr (set_generated_tools (new_instance integration_args)
           (register_tools
              [("op1", "run the trigger"); ("op2", "check the run")] [])).
Proof.
  apply (proj2 (@construction_returns_iff Stub.collaborators
                  integration_args 0 _)).
  exists [("op1", "run the trigger"); ("op2", "check the run")].
  exists default_auth.
  exists [("op1", "run the trigger"); ("op2", "check the run")].
  split; [reflexivity | split; [reflexivity | split; reflexivity]].
Defined.

Lemma parsing_again_run :
  exists self self',
    result (construct integration_args) = inr self
    /\ result (_parse_spec_to_tools self
                 [("op3", "a new one"); ("op1", "replaced")] 1) = inr self'
    /\ (exists added,
           keys (generated_tools self')
           = (keys (generated_tools self) ++ added)%list)
    /\ NoDup (keys (generated_tools self')).
Proof.
  do 2 eexists. split; [reflexivity|]. split; [reflexivity|].
  match goal with
  | |- (exists added,
           keys (generated_tools ?after)
           = (keys (generated_tools ?before) ++ added)%list) /\ _ =>
      destruct (@parsing_again_keeps_registered_names Stub.collaborators
                  before after [("op3", "a new one"); ("op1", "replaced")] 1
                  eq_refl)
        as (E & N & _)
  end.
  split; [exact E|]. apply N.
  repeat constructor; cbn; intuition discriminate.
Defined.

Lemma replaced_in_place_run :
  exists self',
    result (_parse_spec_to_tools
              (set_generated_tools (new_instance integration_args)
                 [("op1", ("op1", "run the trigger"));
                  ("op2", ("op2", "check the run"))])
              [("op2", "again"); ("op2", "newer")] 1) = inr self'
    /\ generated_tools self'
       = [("op1", ("op1", "run the trigger")); ("op2", ("op2", "newer"))].
Proof.
  eexists. split; [reflexivity|].
  assert (N : NoDup (keys (V := string * string)
                       [("op1", ("op1", "run the trigger"));
                        ("op2", ("op2", "check the run"))])).
  { repeat constructor; cbn; intuition discriminate. }
  destruct (@parsing_again_replaces_tools_in_place Stub.collaborators
              (set_generated_tools (H := Stub.collaborators)
                 (new_instance integration_args)
                 [("op1", ("op1", "run the trigger"));
                  ("op2", ("op2", "check the run"))])
              _ [("op2", "again"); ("op2", "newer")] 1 eq_refl N)
    as (auth & tools & _ & P & E).
  inversion P; subst tools.
  destruct E as (_ & G).
  - intros tool [<-|[<-|[]]]; cbn; tauto.
  - exact G.
Defined.

End FurtherRuns.
